(** * Moning: article aggregation, summary cache and recap pipeline

    A shallow embedding of the Python sources of the repository
    (the two Lambda handlers and the recap generator scripts), followed
    by the properties of the specification stated over it.

    Conventions of the embedding.
    - A Python [str] is a [string] read as a sequence of code points
      below 256; [len] is [String.length].
    - A naive [datetime] is the number of microseconds since the epoch
      ([Z]); a [timedelta] is a number of microseconds.  The ISO text
      that the cache stores for [created_at] is represented by the
      datetime it denotes ([isoformat] and [fromisoformat] are inverse on
      naive datetimes).
    - A call that can raise returns a [result]; [try_except] is the
      source's [try: ... except Exception as e: ...].
    - The services outside the repository (DynamoDB, Bedrock, feedparser,
      the clock) are explicit inputs of the functions that call them. *)

From Stdlib Require Import ZArith QArith String Ascii List Bool Lia Lqa Sorted.
From stdpp Require Import base option list gmap strings.

Local Open Scope string_scope.
Local Open Scope list_scope.
Local Open Scope Z_scope.

(* ===================================================================== *)
(** ** Python values and built-ins used by the sources *)
(* ===================================================================== *)

Module Py.

(** Outcome of a call that may raise; [Raise msg] carries [str(e)]. *)
Inductive result (A : Type) : Type :=
| Ok (a : A)
| Raise (msg : string).
Arguments Ok {A} a.
Arguments Raise {A} msg.

#[global] Instance result_ret : MRet result := fun A a => Ok a.
#[global] Instance result_bind : MBind result := fun A B f m =>
  match m with
  | Ok a => f a
  | Raise msg => Raise msg
  end.

(** [try: body  except Exception as e: handler(str(e))]. *)
Definition try_except {A : Type} (body : result A) (handler : string -> A) : A :=
  match body with
  | Ok a => a
  | Raise msg => handler msg
  end.

(** [d[key]] on a field that may be missing. *)
Definition getitem {A : Type} (key : string) (field : option A) : result A :=
  match field with
  | Some a => Ok a
  | None => Raise ("'" +:+ key +:+ "'")
  end.

(** [d.get(key, dflt)]. *)
Definition get {A : Type} (field : option A) (dflt : A) : A :=
  match field with
  | Some a => a
  | None => dflt
  end.

Definition datetime : Type := Z.
Definition timedelta : Type := Z.

Definition timedelta_hours (h : Z) : timedelta := h * 3600 * 1000000.
Definition timedelta_days (d : Z) : timedelta := d * 86400 * 1000000.

(** [td.total_seconds()]. *)
Definition total_seconds (td : timedelta) : Q := Qmake td 1000000.

(** [int(dt.timestamp())] with the process clock in UTC, as in Lambda. *)
Definition int_timestamp (dt : datetime) : Z := Z.quot dt 1000000.

Definition nl : string := String (ascii_of_nat 10) EmptyString.

(** [str.lower] on code points below 256. *)
Definition lower_char (c : ascii) : ascii :=
  let n := nat_of_ascii c in
  if ((65 <=? n)%nat && (n <=? 90)%nat)
     || ((192 <=? n)%nat && (n <=? 222)%nat && negb (n =? 215)%nat)
  then ascii_of_nat (n + 32)
  else c.

Fixpoint lower (s : string) : string :=
  match s with
  | EmptyString => EmptyString
  | String c s' => String (lower_char c) (lower s')
  end.

(** [str.isspace] on one code point below 256. *)
Definition isspace (c : ascii) : bool :=
  let n := nat_of_ascii c in
  ((9 <=? n)%nat && (n <=? 13)%nat)
  || ((28 <=? n)%nat && (n <=? 32)%nat)
  || (n =? 133)%nat || (n =? 160)%nat.

Fixpoint lstrip (s : string) : string :=
  match s with
  | EmptyString => EmptyString
  | String c s' => if isspace c then lstrip s' else s
  end.

Fixpoint rstrip (s : string) : string :=
  match s with
  | EmptyString => EmptyString
  | String c s' =>
      match rstrip s' with
      | EmptyString => if isspace c then EmptyString else String c EmptyString
      | r => String c r
      end
  end.

Definition strip (s : string) : string := rstrip (lstrip s).

(** [needle in hay] on strings. *)
Fixpoint contains (needle hay : string) : bool :=
  String.prefix needle hay
  || match hay with
     | EmptyString => false
     | String _ hay' => contains needle hay'
     end.

(** [any(keyword in text for keyword in keywords)]. *)
Definition any_in (keywords : list string) (text : string) : bool :=
  existsb (fun keyword => contains keyword text) keywords.

(** [s[:n]] for a non-negative literal [n]. *)
Definition str_take (n : nat) (s : string) : string := String.substring 0 n s.

(** [l[:k]] for an integer [k] of either sign. *)
Definition slice_to {A : Type} (k : Z) (l : list A) : list A :=
  if k <? 0
  then take (Z.to_nat (Z.max 0 (Z.of_nat (length l) + k))) l
  else take (Z.to_nat k) l.

(** Truthiness of a string. *)
Definition truthy (s : string) : bool :=
  match s with
  | EmptyString => false
  | _ => true
  end.

(** Truthiness of a string that may be [None]. *)
Definition truthy_opt (o : option string) : bool :=
  match o with
  | Some s => truthy s
  | None => false
  end.

(** [len(s)] as a Python int. *)
Definition len (s : string) : Z := Z.of_nat (String.length s).

(** [re.sub(r'<[^>]+>', '', s)]: every [<], followed by one or more
    characters other than [>] and then by [>], is deleted with them;
    matches are taken leftmost first.  The auxiliary result is, for the
    first [>] of the string if any, whether it is its first character and
    the cleaned text that follows it. *)
Fixpoint strip_tags_aux (s : string) : string * option (bool * string) :=
  match s with
  | EmptyString => (EmptyString, None)
  | String c s' =>
      let '(r', g') := strip_tags_aux s' in
      let g :=
        if Ascii.eqb c ">" then Some (true, r')
        else match g' with
             | Some (_, t) => Some (false, t)
             | None => None
             end in
      let r :=
        if Ascii.eqb c "<"
        then match g' with
             | Some (false, t) => t
             | _ => String c r'
             end
        else String c r' in
      (r, g)
  end.

Definition strip_tags (s : string) : string := fst (strip_tags_aux s).

(** [s.replace(old, new)] for a non-empty [old]; [skip] counts the
    characters of a match that remain to be passed over. *)
Fixpoint replace_aux (old new : string) (skip : nat) (s : string) : string :=
  match s with
  | EmptyString => EmptyString
  | String c s' =>
      match skip with
      | S k => replace_aux old new k s'
      | O =>
          if String.prefix old s
          then new +:+ replace_aux old new (String.length old - 1) s'
          else String c (replace_aux old new 0 s')
      end
  end.

Definition replace (old new s : string) : string := replace_aux old new 0 s.

(** Comparisons of Python numbers held as rationals. *)
Definition Qltb (x y : Q) : bool := negb (Qle_bool y x).
Definition Qgeb (x y : Q) : bool := Qle_bool y x.

(** The sort key [(score, published)] and its strict order on tuples. *)
Definition key_gtb (k1 k2 : Q * datetime) : bool :=
  Qltb (fst k2) (fst k1) || (Qeq_bool (fst k1) (fst k2) && (snd k2 <? snd k1)).

(** [l.sort(key=key, reverse=True)]: a stable sort in descending key
    order; elements with equal keys keep their order in [l]. *)
Fixpoint insert_desc {A K : Type} (gtb : K -> K -> bool) (key : A -> K)
    (x : A) (l : list A) : list A :=
  match l with
  | [] => [x]
  | y :: l' =>
      if gtb (key y) (key x)
      then y :: insert_desc gtb key x l'
      else x :: y :: l'
  end.

Definition sort_desc {A K : Type} (gtb : K -> K -> bool) (key : A -> K)
    (l : list A) : list A :=
  foldr (insert_desc gtb key) [] l.

(** Values of a JSON-like dictionary. *)
Inductive value : Type :=
| VStr (s : string)
| VInt (n : Z).

Definition dict : Type := list (string * value).

End Py.

Import Py.

(* ===================================================================== *)
(** ** The DynamoDB table [article-summaries] shared by the two Lambdas *)
(* ===================================================================== *)

Module DynamoDB.

(** An item of the DynamoDB table, keyed by [article_id]; an attribute
    that is missing is [None]. *)
Record Item : Type := mkItem {
  summary : option string;
  created_at : option datetime;
  ttl : option Z;
  model_used : option string;
  metadata : option dict
}.

(** [table.get_item(Key={'article_id': article_id})]; [fault] is the
    error the service raises on this call, if any.  [Ok None] is a
    response without ['Item']. *)
Definition get_item (fault : option string) (table : gmap string Item)
    (article_id : string) : result (option Item) :=
  match fault with
  | Some msg => Raise msg
  | None => Ok (table !! article_id)
  end.

(** [table.put_item(Item=item)]. *)
Definition put_item (fault : option string) (table : gmap string Item)
    (article_id : string) (item : Item) : result (gmap string Item) :=
  match fault with
  | Some msg => Raise msg
  | None => Ok (<[article_id := item]> table)
  end.

End DynamoDB.

Import DynamoDB.

(* ===================================================================== *)
(** ** aws-deployment/functions/batch-summarizer/lambda_function.py *)
(* ===================================================================== *)

Module BatchSummarizer.

Definition MODEL_ID : string := "openai.gpt-oss-20b-1:0".
Definition MAX_ARTICLES_PER_BATCH : Z := 50.
Definition CACHE_DURATION_HOURS : Z := 24.

(** [now] is the reading of [datetime.utcnow()]. *)
Definition get_cached_summary (fault : option string) (now : datetime)
    (table : gmap string Item) (article_id : string) : option string :=
  try_except
    (response ← get_item fault table article_id;
     match response with
     | Some item =>
         created ← getitem "created_at" (created_at item);
         if now - created <? timedelta_hours CACHE_DURATION_HOURS
         then s ← getitem "summary" (summary item); mret (Some s)
         else mret None
     | None => mret None
     end)
    (fun _ => None).

(** [cache_summary]: the table after the call; [current_time] is the
    reading of [datetime.utcnow()]. *)
Definition cache_summary (fault : option string) (current_time : datetime)
    (table : gmap string Item) (article_id summary : string)
    (metadata : dict) : gmap string Item :=
  try_except
    (let ttl_time := current_time + timedelta_days 30 in
     let item := {| summary := Some summary;
                    created_at := Some current_time;
                    ttl := Some (int_timestamp ttl_time);
                    model_used := Some MODEL_ID;
                    metadata := Some metadata |} in
     put_item fault table article_id item)
    (fun _ => table).

Definition base_prompt : string :=
  "You are an expert news summarizer specializing in technology and business news. Create concise, accurate 2-3 sentence summaries that capture the most important facts and business implications.".

Definition category_prompts : list (string * string) :=
  [ ("AI", base_prompt +:+ " Focus on technical capabilities, business impact, and industry implications of AI developments.");
    ("Business", base_prompt +:+ " Emphasize financial figures, market impact, and strategic business decisions.");
    ("Technology", base_prompt +:+ " Highlight technical specifications, innovation aspects, and market positioning.");
    ("Startups", base_prompt +:+ " Focus on funding rounds, business models, and market disruption potential.") ].

Fixpoint assoc_get (key : string) (d : list (string * string)) (dflt : string) : string :=
  match d with
  | [] => dflt
  | (k, v) :: d' => if String.eqb k key then v else assoc_get key d' dflt
  end.

Definition create_system_prompt (category : string) : string :=
  assoc_get category category_prompts base_prompt.

Definition create_user_prompt (content title : string) : string :=
  if truthy title
  then "Summarize this tech news article titled '" +:+ title +:+ "':" +:+ nl +:+ nl +:+ content
  else "Summarize this tech news article:" +:+ nl +:+ nl +:+ content.

(** The request sent to Bedrock. *)
Record Payload : Type := mkPayload {
  system_content : string;
  user_content : string;
  max_completion_tokens : Z;
  temperature : Q;
  reasoning_effort : string
}.

(** [invoke_model payload] stands for the call to Bedrock followed by
    the extraction of [choices[0].message.content] from the reply: the
    text on success, [Raise] when the call or the extraction raises. *)
Definition generate_summary (invoke_model : Payload -> result string)
    (content title category : string) : option string :=
  try_except
    (let max_content_length := 4000%nat in
     let content :=
       if (max_content_length <? String.length content)%nat
       then str_take max_content_length content +:+ "..."
       else content in
     let system_prompt := create_system_prompt category in
     let user_prompt := create_user_prompt content title in
     let payload := {| system_content := system_prompt;
                       user_content := user_prompt;
                       max_completion_tokens := 150;
                       temperature := 3 # 10;
                       reasoning_effort := "low" |} in
     text ← invoke_model payload;
     let summary := strip text in
     if len summary <? 20
     then mret None
     else mret (Some summary))
    (fun _ => None).

(** One element of [event['articles']]; a key that is missing is [None]. *)
Record Article : Type := mkArticle {
  id : option string;
  title : option string;
  content : option string;
  source : option string;
  category : option string
}.

Record Results : Type := mkResults {
  new_summaries : Z;
  cached_summaries : Z;
  errors : list string;
  processing_time : Q
}.

(** What the outside world does while one article is processed: the
    faults and clock readings of the cache read and of the cache write,
    and the behaviour of the model. *)
Record Ext : Type := mkExt {
  read_fault : option string;
  read_now : datetime;
  invoke_model : Payload -> result string;
  write_fault : option string;
  write_now : datetime
}.

Definition add_error (msg : string) (r : Results) : Results :=
  {| new_summaries := new_summaries r;
     cached_summaries := cached_summaries r;
     errors := errors r ++ [msg];
     processing_time := processing_time r |}.

Definition add_cached (r : Results) : Results :=
  {| new_summaries := new_summaries r;
     cached_summaries := cached_summaries r + 1;
     errors := errors r;
     processing_time := processing_time r |}.

Definition add_new (r : Results) : Results :=
  {| new_summaries := new_summaries r + 1;
     cached_summaries := cached_summaries r;
     errors := errors r;
     processing_time := processing_time r |}.

(** Body of the [for article in articles] loop.  With articles whose
    fields are strings every call that can raise is guarded inside the
    callee, so the loop's own [except] clause is not entered. *)
Definition process_article (e : Ext) (article : Article)
    (st : gmap string Item * Results) : gmap string Item * Results :=
  let '(table, results) := st in
  let article_id := id article in
  if negb (truthy_opt article_id)
  then (table, add_error "Article missing 'id' field" results)
  else
    let article_id := get article_id "" in
    let cached_summary :=
      get_cached_summary (read_fault e) (read_now e) table article_id in
    if truthy_opt cached_summary
    then (table, add_cached results)
    else
      let content := get (content article) "" in
      let title := get (title article) "" in
      if negb (truthy content)
      then (table, add_error ("Article " +:+ article_id +:+ " has no content") results)
      else
        let summary :=
          generate_summary (invoke_model e) content title (get (category article) "") in
        match summary with
        | Some summary =>
            (* a summary that passed validation has 20 characters or more *)
            let table :=
              cache_summary (write_fault e) (write_now e) table article_id summary
                [ ("title", VStr title);
                  ("source", VStr (get (source article) ""));
                  ("category", VStr (get (category article) ""));
                  ("content_length", VInt (len content)) ] in
            (table, add_new results)
        | None =>
            (table,
             add_error ("Failed to generate summary for article " +:+ article_id) results)
        end.

(** The loop of [process_articles_batch], from position [i] of the
    batch; [env i] is the outside world during the [i]-th article. *)
Fixpoint process_loop (env : nat -> Ext) (i : nat) (articles : list Article)
    (st : gmap string Item * Results) : gmap string Item * Results :=
  match articles with
  | [] => st
  | article :: rest => process_loop env (S i) rest (process_article (env i) article st)
  end.

Definition initial_results : Results :=
  {| new_summaries := 0; cached_summaries := 0; errors := []; processing_time := 0 |}.

(** [results['processing_time'] = seconds]. *)
Definition set_processing_time (seconds : Q) (r : Results) : Results :=
  {| new_summaries := new_summaries r;
     cached_summaries := cached_summaries r;
     errors := errors r;
     processing_time := seconds |}.

(** [start_time] and [end_time] are the two readings of [datetime.now()]. *)
Definition process_articles_batch (env : nat -> Ext) (start_time end_time : datetime)
    (table : gmap string Item) (articles : list Article)
    : gmap string Item * Results :=
  let '(table, results) := process_loop env 0 articles (table, initial_results) in
  (table, set_processing_time (total_seconds (end_time - start_time)) results).

(** The Lambda event; a key that is missing is [None]. *)
Record Event : Type := mkEvent {
  ev_articles : option (list Article);
  ev_trigger : option string;
  ev_batch_size : option Z
}.

Inductive Body : Type :=
| NoArticles
| Processed (trigger : string) (processed summaries_generated cached : Z)
    (errs : list string) (model : string) (processing_time_seconds : Q).

Record Response : Type := mkResponse {
  statusCode : Z;
  body : Body
}.

(** [lambda_handler]: the table after the call and the response.  With
    an event of this type nothing in the handler's [try] raises, so its
    status-500 clause is not entered. *)
Definition lambda_handler (env : nat -> Ext) (start_time end_time : datetime)
    (table : gmap string Item) (event : Event) : gmap string Item * Response :=
  let articles := get (ev_articles event) [] in
  let trigger_type := get (ev_trigger event) "manual" in
  let batch_size :=
    Z.min (get (ev_batch_size event) MAX_ARTICLES_PER_BATCH) MAX_ARTICLES_PER_BATCH in
  match articles with
  | [] => (table, {| statusCode := 400; body := NoArticles |})
  | _ =>
      let articles :=
        if batch_size <? Z.of_nat (length articles)
        then slice_to batch_size articles
        else articles in
      let '(table, results) :=
        process_articles_batch env start_time end_time table articles in
      (table,
       {| statusCode := 200;
          body := Processed trigger_type (Z.of_nat (length articles))
                    (new_summaries results) (cached_summaries results)
                    (errors results) MODEL_ID (processing_time results) |})
  end.

End BatchSummarizer.

(* ===================================================================== *)
(** ** aws-deployment/functions/api-handler/lambda_function.py *)
(* ===================================================================== *)

Module ApiHandler.

Definition MODEL_ID : string := "openai.gpt-oss-20b-1:0".

(** What [json.loads(event['body'])] gives: a decoding error, a value
    that is not an object ([body.get] raises with [msg]), or an object
    with its [article_ids] member, if any. *)
Inductive Ids : Type :=
| IdsList (ids : list string)
| IdsOther.

Inductive Json : Type :=
| JSONDecodeError
| NotObject (msg : string)
| Object (article_ids : option Ids).

(** The API Gateway proxy event; a key that is missing is [None]. *)
Record Event : Type := mkEvent {
  httpMethod : option string;
  path : option string;
  pathParameters : option (list (string * string));
  ev_body : option string
}.

(** One value of the [summaries] dictionary of a batch response. *)
Inductive Entry : Type :=
| Found (summary : string) (created_at : option datetime) (model_used : string)
    (metadata : dict)
| Null
| Failed (error : string).

(** The value handed to [json.dumps] for the body of a response. *)
Inductive Body : Type :=
| Empty
| EndpointNotFound
| InternalServerError (details : string)
| ErrorOnly (error : string)
| Summary (article_id summary : string) (created_at : option datetime)
    (model_used : string) (cached : bool) (metadata : dict)
| SummaryNotFound (article_id : string)
| MissingBody
| InvalidIds
| Batch (summaries : gmap string Entry) (found not_found total_requested : Z)
    (model_used : string).

Record Response : Type := mkResponse {
  statusCode : Z;
  headers : list (string * string);
  body : Body
}.

Definition cors_headers : list (string * string) :=
  [ ("Access-Control-Allow-Origin", "*");
    ("Access-Control-Allow-Methods", "GET, POST, OPTIONS");
    ("Access-Control-Allow-Headers", "Content-Type, Authorization");
    ("Access-Control-Max-Age", "86400") ].

Fixpoint lookup_key (key : string) (d : list (string * string)) : result string :=
  match d with
  | [] => Raise ("'" +:+ key +:+ "'")
  | (k, v) :: d' => if String.eqb k key then Ok v else lookup_key key d'
  end.

(** [fault] is the error raised by the table on this call, if any. *)
Definition handle_single_summary (fault : option string) (table : gmap string Item)
    (event : Event) (headers : list (string * string)) : Response :=
  try_except
    (params ← getitem "pathParameters" (pathParameters event);
     article_id ← lookup_key "article_id" params;
     if negb (truthy article_id)
     then mret {| statusCode := 400; headers := headers;
                  body := ErrorOnly "Missing article_id parameter" |}
     else
       response ← get_item fault table article_id;
       match response with
       | Some item =>
           s ← getitem "summary" (summary item);
           mret {| statusCode := 200; headers := headers;
                   body := Summary article_id s (created_at item)
                             (get (model_used item) MODEL_ID) true
                             (get (metadata item) []) |}
       | None =>
           mret {| statusCode := 404; headers := headers;
                   body := SummaryNotFound article_id |}
       end)
    (fun msg => {| statusCode := 500; headers := headers; body := ErrorOnly msg |}).

(** Body of the [for article_id in article_ids] loop. *)
Definition fetch_one (fault : option string) (table : gmap string Item)
    (article_id : string) (st : gmap string Entry * Z) : gmap string Entry * Z :=
  let '(summaries, found_count) := st in
  try_except
    (response ← get_item fault table article_id;
     match response with
     | Some item =>
         s ← getitem "summary" (summary item);
         mret (<[article_id := Found s (created_at item)
                                 (get (model_used item) MODEL_ID)
                                 (get (metadata item) [])]> summaries,
               found_count + 1)
     | None => mret (<[article_id := Null]> summaries, found_count)
     end)
    (fun msg => (<[article_id := Failed msg]> summaries, found_count)).

(** The loop from position [i]; [faults i] is the fault of the [i]-th
    call to the table. *)
Fixpoint fetch_loop (faults : nat -> option string) (table : gmap string Item)
    (i : nat) (article_ids : list string) (st : gmap string Entry * Z)
    : gmap string Entry * Z :=
  match article_ids with
  | [] => st
  | article_id :: rest =>
      fetch_loop faults table (S i) rest (fetch_one (faults i) table article_id st)
  end.

Definition handle_batch_summaries (json_loads : string -> Json)
    (faults : nat -> option string) (table : gmap string Item)
    (event : Event) (headers : list (string * string)) : Response :=
  if negb (truthy_opt (ev_body event))
  then {| statusCode := 400; headers := headers; body := MissingBody |}
  else
    match json_loads (get (ev_body event) "") with
    | JSONDecodeError =>
        {| statusCode := 400; headers := headers;
           body := ErrorOnly "Invalid JSON in request body" |}
    | NotObject msg =>
        {| statusCode := 500; headers := headers; body := ErrorOnly msg |}
    | Object article_ids =>
        match get article_ids (IdsList []) with
        | IdsOther | IdsList [] =>
            {| statusCode := 400; headers := headers; body := InvalidIds |}
        | IdsList article_ids =>
            let max_batch_size := 50%nat in
            let article_ids :=
              if (max_batch_size <? length article_ids)%nat
              then take max_batch_size article_ids
              else article_ids in
            let '(summaries, found_count) :=
              fetch_loop faults table 0 article_ids (∅, 0) in
            {| statusCode := 200; headers := headers;
               body := Batch summaries found_count
                         (Z.of_nat (length article_ids) - found_count)
                         (Z.of_nat (length article_ids)) MODEL_ID |}
        end
    end.

Definition lambda_handler (json_loads : string -> Json)
    (faults : nat -> option string) (table : gmap string Item)
    (event : Event) : Response :=
  try_except
    (method ← getitem "httpMethod" (httpMethod event);
     path ← getitem "path" (path event);
     if String.eqb method "OPTIONS"
     then mret {| statusCode := 200; headers := cors_headers; body := Empty |}
     else if String.eqb method "GET" && String.prefix "/summaries/" path
     then mret (handle_single_summary (faults 0%nat) table event cors_headers)
     else if String.eqb method "POST" && String.eqb path "/batch-summaries"
     then mret (handle_batch_summaries json_loads faults table event cors_headers)
     else mret {| statusCode := 404; headers := cors_headers; body := EndpointNotFound |})
    (fun msg => {| statusCode := 500;
                   headers := [("Content-Type", "application/json")];
                   body := InternalServerError msg |}).

Definition dq : string := String (ascii_of_nat 34) EmptyString.

(** [generate_summary_on_demand]; [invoke_model] is the call to Bedrock
    followed by the extraction of [choices[0].message.content]. *)
Definition generate_summary_on_demand
    (invoke_model : BatchSummarizer.Payload -> result string)
    (content title : string) : option string :=
  try_except
    (let max_length := 4000%nat in
     let content :=
       if (max_length <? String.length content)%nat
       then str_take max_length content +:+ "..."
       else content in
     let system_prompt :=
       "You are an expert news summarizer. Create concise 2-3 sentence summaries of tech news articles." in
     let user_prompt :=
       "Summarize this article"
       +:+ (if truthy title then " titled " +:+ dq +:+ title +:+ dq else "")
       +:+ ":" +:+ nl +:+ nl +:+ content in
     let payload := {| BatchSummarizer.system_content := system_prompt;
                       BatchSummarizer.user_content := user_prompt;
                       BatchSummarizer.max_completion_tokens := 150;
                       BatchSummarizer.temperature := 3 # 10;
                       BatchSummarizer.reasoning_effort := "low" |} in
     text ← invoke_model payload;
     mret (Some (strip text)))
    (fun _ => None).

End ApiHandler.

(* ===================================================================== *)
(** ** The feeds read through [feedparser] *)
(* ===================================================================== *)

Module Feedparser.

(** An entry of a parsed feed; an attribute the entry does not have is
    [None].  [published_parsed] and [updated_parsed] hold the datetime
    built from the first six fields of the parsed time tuple; [content] is the
    list of the [value] members of the entry's content blocks. *)
Record Entry : Type := mkEntry {
  title : option string;
  link : option string;
  description : option string;
  summary : option string;
  summary_detail : option (option string);
  content : option (list (option string));
  published_parsed : option datetime;
  updated_parsed : option datetime;
  published : option string;
  author : option string
}.

Record Feed : Type := mkFeed {
  entries : list Entry
}.

(** [entry.name] on an attribute that may be missing. *)
Definition getattr {A : Type} (name : string) (field : option A) : result A :=
  match field with
  | Some a => Ok a
  | None => Raise ("object has no attribute '" +:+ name +:+ "'")
  end.

End Feedparser.

(* ===================================================================== *)
(** ** tech_industry_recap.py *)
(* ===================================================================== *)

Module TechIndustryRecap.

Import Feedparser.

Record Source : Type := mkSource {
  name : string;
  url : string;
  weight : Q
}.

Definition sources : list Source :=
  [ {| name := "TechCrunch"; url := "https://techcrunch.com/feed/"; weight := 1 |};
    {| name := "The Verge"; url := "https://www.theverge.com/rss/index.xml"; weight := 9 # 10 |};
    {| name := "Ars Technica"; url := "https://feeds.arstechnica.com/arstechnica/index"; weight := 95 # 100 |};
    {| name := "MIT Technology Review"; url := "https://www.technologyreview.com/feed/"; weight := 95 # 100 |};
    {| name := "Wired"; url := "https://www.wired.com/feed/rss"; weight := 9 # 10 |};
    {| name := "Engadget"; url := "https://www.engadget.com/rss.xml"; weight := 8 # 10 |};
    {| name := "VentureBeat"; url := "https://venturebeat.com/feed/"; weight := 85 # 100 |} ].

Definition ai_keywords : list string :=
  ["ai"; "artificial intelligence"; "openai"; "gpt"; "claude"; "llm";
   "machine learning"; "neural"; "chatbot"; "generative"].
Definition crypto_keywords : list string :=
  ["crypto"; "bitcoin"; "ethereum"; "blockchain"; "defi"; "nft"; "web3"].
Definition startup_keywords : list string :=
  ["funding"; "startup"; "venture"; "series a"; "series b"; "ipo"; "acquisition"; "merger"].
Definition big_tech_keywords : list string :=
  ["apple"; "google"; "microsoft"; "amazon"; "meta"; "tesla"; "nvidia"].
Definition security_keywords : list string :=
  ["security"; "hack"; "breach"; "vulnerability"; "cyber"; "privacy"].
Definition major_story_keywords : list string :=
  ["released"; "launches"; "announces"; "breakthrough"; "revolutionary"; "first"; "major"].

(** The article dictionary; [category] and [importance_score] are the
    two keys added after construction. *)
Record Article : Type := mkArticle {
  a_title : string;
  a_url : string;
  a_description : string;
  a_content : string;
  a_source : string;
  source_weight : Q;
  a_published : datetime;
  a_author : string;
  category : string;
  importance_score : Q
}.

Definition extract_content (entry : Entry) : string :=
  let content :=
    match content entry with
    | Some (first :: _) => get first ""
    | _ =>
        match summary_detail entry with
        | Some detail => get detail ""
        | None =>
            match description entry with
            | Some d => d
            | None => get (summary entry) ""
            end
        end
    end in
  let content := strip_tags content in
  str_take 1000 (strip content).

Definition categorize_article (title description : string) : string :=
  let text := lower (title +:+ " " +:+ description) in
  if any_in ai_keywords text then "AI & Machine Learning"
  else if any_in crypto_keywords text then "Crypto & Web3"
  else if any_in startup_keywords text then "Startups & Funding"
  else if any_in big_tech_keywords text then "Big Tech"
  else if any_in security_keywords text then "Cybersecurity"
  else "General Tech".

(** The [for keyword in self.major_story_keywords] loop. *)
Fixpoint major_story_boost (keywords : list string) (text : string) (score : Q) : Q :=
  match keywords with
  | [] => score
  | keyword :: rest =>
      major_story_boost rest text
        (if contains keyword text then score + (3 # 10) else score)%Q
  end.

(** [now] is the reading of [datetime.now()]; scores are the exact
    rationals of the decimal literals. *)
Definition calculate_importance_score (now : datetime) (source_weight : Q)
    (title description : string) (published : datetime) : Q :=
  let score := source_weight in
  let text := lower (title +:+ " " +:+ description) in
  let score := major_story_boost major_story_keywords text score in
  let score := (if any_in ai_keywords text then score + (5 # 10) else score)%Q in
  let score := (if any_in big_tech_keywords text then score + (2 # 10) else score)%Q in
  let score := (if any_in startup_keywords text then score + (3 # 10) else score)%Q in
  let age := now - published in
  let hours_old := (total_seconds age / 3600)%Q in
  if Qltb hours_old 24 then (score + (2 # 10))%Q
  else if Qltb hours_old 72 then (score + (1 # 10))%Q
  else score.

(** The outside world of one run: what [feedparser.parse] does for a
    URL, the clock at the start, and the clock when the [j]-th entry of a
    source is scored. *)
Record World : Type := mkWorld {
  parse : string -> result Feed;
  start_now : datetime;
  score_now : Source -> nat -> datetime
}.

(** Body of the [for entry in feed.entries] loop: [Ok None] when the
    entry is skipped, [Raise] when building the article raises. *)
Definition make_article (w : World) (one_week_ago : datetime) (source : Source)
    (j : nat) (entry : Entry) : result (option Article) :=
  let pub_date :=
    match published_parsed entry with
    | Some d => Some d
    | None => updated_parsed entry
    end in
  match pub_date with
  | Some pub_date =>
      if one_week_ago <=? pub_date
      then
        title ← getattr "title" (title entry);
        link ← getattr "link" (link entry);
        let description := get (description entry) "" in
        mret (Some {| a_title := title;
                      a_url := link;
                      a_description := description;
                      a_content := extract_content entry;
                      a_source := name source;
                      source_weight := weight source;
                      a_published := pub_date;
                      a_author := get (author entry) "Unknown";
                      category := categorize_article title description;
                      importance_score :=
                        calculate_importance_score (score_now w source j)
                          (weight source) title description pub_date |})
      else mret None
  | None => mret None
  end.

(** The entries loop from entry [j]; an exception leaves the loop and the
    articles appended so far stay in [all_articles]. *)
Fixpoint entries_loop (w : World) (one_week_ago : datetime) (source : Source)
    (j : nat) (entries : list Entry) (all_articles : list Article) : list Article :=
  match entries with
  | [] => all_articles
  | entry :: rest =>
      match make_article w one_week_ago source j entry with
      | Raise _ => all_articles
      | Ok None => entries_loop w one_week_ago source (S j) rest all_articles
      | Ok (Some article) =>
          entries_loop w one_week_ago source (S j) rest (all_articles ++ [article])
      end
  end.

(** Body of the [for source in self.sources] loop with its [try]. *)
Definition fetch_source (w : World) (one_week_ago : datetime) (source : Source)
    (all_articles : list Article) : list Article :=
  match parse w (url source) with
  | Raise _ => all_articles
  | Ok feed => entries_loop w one_week_ago source 0 (entries feed) all_articles
  end.

Definition sort_key (a : Article) : Q * datetime := (importance_score a, a_published a).

Definition fetch_past_week_articles (w : World) (sources : list Source) : list Article :=
  let one_week_ago := start_now w - timedelta_days 7 in
  let all_articles :=
    foldl (fun all_articles source => fetch_source w one_week_ago source all_articles)
      [] sources in
  sort_desc key_gtb sort_key all_articles.

(** [categories[key] += 1] on a [defaultdict(int)], keys in the order of
    their first use. *)
Fixpoint increment (key : string) (d : list (string * Z)) : list (string * Z) :=
  match d with
  | [] => [(key, 1)]
  | (k, v) :: d' =>
      if String.eqb k key then (k, v + 1) :: d' else (k, v) :: increment key d'
  end.

Definition get_category_distribution (articles : list Article) : list (string * Z) :=
  foldl (fun categories article => increment (category article) categories) [] articles.

End TechIndustryRecap.

(* ===================================================================== *)
(** ** industry_weekly_recap.py *)
(* ===================================================================== *)

Module IndustryWeeklyRecap.

Import Feedparser.

Record Source : Type := mkSource {
  name : string;
  url : string;
  focus : string
}.

Definition tech_sources : list Source :=
  [ {| name := "TechCrunch"; url := "https://techcrunch.com/feed/"; focus := "startups_funding" |};
    {| name := "The Verge"; url := "https://www.theverge.com/rss/index.xml"; focus := "consumer_tech" |};
    {| name := "Ars Technica"; url := "https://feeds.arstechnica.com/arstechnica/index"; focus := "technical_analysis" |};
    {| name := "MIT Technology Review"; url := "https://www.technologyreview.com/feed/"; focus := "ai_research" |};
    {| name := "Wired"; url := "https://www.wired.com/feed/rss"; focus := "tech_culture" |};
    {| name := "VentureBeat"; url := "https://venturebeat.com/feed/"; focus := "enterprise_ai" |};
    {| name := "TechMeme"; url := "https://www.techmeme.com/feed.xml"; focus := "breaking_news" |};
    {| name := "AI News"; url := "https://artificialintelligence-news.com/feed/"; focus := "ai_developments" |} ].

(** [a_published] is [None] for the text 'Unknown'. *)
Record Article : Type := mkArticle {
  a_title : string;
  a_url : string;
  a_content : string;
  a_source : string;
  focus_area : string;
  a_published : option datetime;
  a_summary : string
}.

Record World : Type := mkWorld {
  parse : string -> result Feed;
  now : datetime
}.

(** Body of the entries loop: [Ok None] for an entry that is too old. *)
Definition make_article (cutoff_date : datetime) (source : Source) (entry : Entry)
    : result (option Article) :=
  let pub_date :=
    match published_parsed entry with
    | Some d => Some d
    | None => updated_parsed entry
    end in
  if match pub_date with
     | Some d => d <? cutoff_date
     | None => false
     end
  then mret None
  else
    content ←
      match content entry with
      | Some (first :: _) => getattr "value" first
      | _ => mret (get (description entry) (get (summary entry) ""))
      end;
    let content := strip_tags content in
    let content := replace "&amp;" "&" (replace "&nbsp;" " " content) in
    title ← getattr "title" (title entry);
    link ← getattr "link" (link entry);
    mret (Some {| a_title := title;
                  a_url := link;
                  a_content := str_take 1000 content;
                  a_source := name source;
                  focus_area := focus source;
                  a_published := pub_date;
                  a_summary := "" |}).

Fixpoint entries_loop (cutoff_date : datetime) (source : Source)
    (entries : list Entry) (all_articles : list Article) : list Article :=
  match entries with
  | [] => all_articles
  | entry :: rest =>
      match make_article cutoff_date source entry with
      | Raise _ => all_articles
      | Ok None => entries_loop cutoff_date source rest all_articles
      | Ok (Some article) => entries_loop cutoff_date source rest (all_articles ++ [article])
      end
  end.

Definition fetch_source (w : World) (cutoff_date : datetime) (source : Source)
    (all_articles : list Article) : list Article :=
  match parse w (url source) with
  | Raise _ => all_articles
  | Ok feed => entries_loop cutoff_date source (take 20 (entries feed)) all_articles
  end.

Definition fetch_week_articles (w : World) (sources : list Source) (days_back : Z)
    : list Article :=
  let cutoff_date := now w - timedelta_days days_back in
  foldl (fun all_articles source => fetch_source w cutoff_date source all_articles)
    [] sources.

Definition keywords : list (string * list string) :=
  [ ("ai_llm", ["ai"; "artificial intelligence"; "llm"; "gpt"; "claude"; "openai";
                "anthropic"; "machine learning"; "neural"; "model"]);
    ("funding_ipo", ["funding"; "raised"; "million"; "billion"; "investment"; "ipo";
                     "acquisition"; "valuation"; "series"]);
    ("big_tech", ["apple"; "google"; "microsoft"; "amazon"; "meta"; "tesla"; "nvidia";
                  "alphabet"]);
    ("security", ["security"; "hack"; "breach"; "vulnerability"; "cyber"; "malware";
                  "privacy"]);
    ("regulation", ["regulation"; "government"; "policy"; "law"; "compliance";
                    "antitrust"; "senate"]);
    ("startups", ["startup"; "founder"; "launch"; "debut"; "new company"]) ].

Definition empty_categories : list (string * list Article) :=
  [ ("ai_llm", []); ("funding_ipo", []); ("big_tech", []); ("startups", []);
    ("security", []); ("regulation", []); ("products", []); ("other", []) ].

(** The [for category, terms in keywords.items()] loop with its [break]:
    the first category one of whose terms is in the text. *)
Fixpoint first_match (keywords : list (string * list string)) (text : string)
    : option string :=
  match keywords with
  | [] => None
  | (category, terms) :: rest =>
      if any_in terms text then Some category else first_match rest text
  end.

(** [categories[category].append(article)]. *)
Fixpoint bucket_append (category : string) (article : Article)
    (categories : list (string * list Article)) : list (string * list Article) :=
  match categories with
  | [] => []
  | (k, l) :: rest =>
      if String.eqb k category
      then (k, l ++ [article]) :: rest
      else (k, l) :: bucket_append category article rest
  end.

(** The category an article is filed under. *)
Definition category_of (article : Article) : string :=
  let text := lower (a_title article +:+ " " +:+ a_content article) in
  match first_match keywords text with
  | Some category => category
  | None => "other"
  end.

Definition categorize_articles (articles : list Article) : list (string * list Article) :=
  foldl (fun categories article => bucket_append (category_of article) article categories)
    empty_categories articles.

End IndustryWeeklyRecap.

(* ===================================================================== *)
(** ** enhanced_tech_recap.py *)
(* ===================================================================== *)

Module EnhancedTechRecap.

Import Feedparser.

Record Source : Type := mkSource {
  name : string;
  url : string;
  weight : Q
}.

Definition sources : list Source :=
  [ {| name := "TechCrunch"; url := "https://techcrunch.com/feed/"; weight := 1 |};
    {| name := "The Verge"; url := "https://www.theverge.com/rss/index.xml"; weight := 9 # 10 |};
    {| name := "Ars Technica"; url := "https://feeds.arstechnica.com/arstechnica/index"; weight := 95 # 100 |};
    {| name := "MIT Technology Review"; url := "https://www.technologyreview.com/feed/"; weight := 95 # 100 |};
    {| name := "Wired"; url := "https://www.wired.com/feed/rss"; weight := 9 # 10 |} ].

(** The article dictionary as [fetch_and_analyze_articles] builds it. *)
Record RawArticle : Type := mkRawArticle {
  r_title : string;
  r_url : string;
  r_description : string;
  r_source : string;
  r_published : datetime;
  raw_entry : Entry
}.

(** The same dictionary once [analyze_article_trends] has added its
    [categories] and [importance] keys.  The lists of the analysis all
    hold the one dictionary of an article, so they all see both keys. *)
Record Article : Type := mkArticle {
  raw : RawArticle;
  categories : list string;
  importance : Q
}.

Definition a_title (a : Article) : string := r_title (raw a).
Definition a_published (a : Article) : datetime := r_published (raw a).

Record World : Type := mkWorld {
  parse : string -> result Feed;
  now : datetime
}.

Definition make_article (one_week_ago : datetime) (source : Source) (entry : Entry)
    : result (option RawArticle) :=
  match published_parsed entry with
  | Some pub_date =>
      if one_week_ago <=? pub_date
      then
        title ← getattr "title" (title entry);
        link ← getattr "link" (link entry);
        mret (Some {| r_title := title;
                      r_url := link;
                      r_description := str_take 500 (get (description entry) "");
                      r_source := name source;
                      r_published := pub_date;
                      raw_entry := entry |})
      else mret None
  | None => mret None
  end.

Fixpoint entries_loop (one_week_ago : datetime) (source : Source)
    (entries : list Entry) (articles : list RawArticle) : list RawArticle :=
  match entries with
  | [] => articles
  | entry :: rest =>
      match make_article one_week_ago source entry with
      | Raise _ => articles
      | Ok None => entries_loop one_week_ago source rest articles
      | Ok (Some article) => entries_loop one_week_ago source rest (articles ++ [article])
      end
  end.

Definition fetch_source (w : World) (one_week_ago : datetime) (source : Source)
    (articles : list RawArticle) : list RawArticle :=
  match parse w (url source) with
  | Raise _ => articles
  | Ok feed => entries_loop one_week_ago source (take 15 (entries feed)) articles
  end.

(** The fetching loop of [fetch_and_analyze_articles]. *)
Definition fetch_articles (w : World) (sources : list Source) : list RawArticle :=
  let one_week_ago := now w - timedelta_days 7 in
  foldl (fun articles source => fetch_source w one_week_ago source articles) [] sources.

Definition ai_companies : list string :=
  ["openai"; "anthropic"; "google"; "microsoft"; "nvidia"; "meta"].
Definition ai_terms : list string :=
  ["gpt"; "claude"; "gemini"; "llm"; "artificial intelligence"; "machine learning"; "ai model"].
Definition security_terms : list string :=
  ["hack"; "security"; "breach"; "vulnerability"; "cyber"].
Definition funding_terms : list string :=
  ["funding"; "raises"; "series"; "investment"; "venture"].
Definition big_tech_terms : list string :=
  ["apple"; "google"; "microsoft"; "amazon"; "meta"; "tesla"].
Definition breakthrough_terms : list string :=
  ["launches"; "announces"; "reveals"; "breakthrough"; "first"].
Definition regulatory_terms : list string :=
  ["regulation"; "policy"; "government"; "congress"; "eu"].

Record Trends : Type := mkTrends {
  ai_stories : list Article;
  security_stories : list Article;
  startup_funding : list Article;
  big_tech_moves : list Article;
  breakthrough_tech : list Article;
  regulatory_news : list Article
}.

Record Stats : Type := mkStats {
  total_articles : nat;
  ai_focus : nat;
  security_focus : nat;
  funding_stories : nat;
  big_tech_stories : nat
}.

Record Analysis : Type := mkAnalysis {
  articles : list Article;
  trends : Trends;
  major_stories : list Article;
  stats : Stats
}.

(** The categories and the importance the loop body computes for a text. *)
Definition classify (text : string) : list string * Q :=
  let importance := 0%Q in
  let categories := [] in
  let '(categories, importance) :=
    if any_in (ai_terms ++ ai_companies) text
    then (categories ++ ["AI"], (importance + 2)%Q) else (categories, importance) in
  let '(categories, importance) :=
    if any_in security_terms text
    then (categories ++ ["Security"], (importance + (3 # 2))%Q) else (categories, importance) in
  let '(categories, importance) :=
    if any_in funding_terms text
    then (categories ++ ["Funding"], (importance + 1)%Q) else (categories, importance) in
  let '(categories, importance) :=
    if any_in big_tech_terms text
    then (categories ++ ["Big Tech"], (importance + (3 # 2))%Q) else (categories, importance) in
  let importance :=
    if any_in breakthrough_terms text then (importance + 1)%Q else importance in
  let '(categories, importance) :=
    if any_in regulatory_terms text
    then (categories ++ ["Regulatory"], (importance + 1)%Q) else (categories, importance) in
  (categories, importance).

(** The article dictionary with the two keys the loop body sets. *)
Definition analyzed (r : RawArticle) : Article :=
  let text := lower (r_title r +:+ " " +:+ r_description r) in
  let '(categories, importance) := classify text in
  {| raw := r; categories := categories; importance := importance |}.

Definition append_if (b : bool) (article : Article) (l : list Article) : list Article :=
  if b then l ++ [article] else l.

(** Body of the [for article in articles] loop of
    [analyze_article_trends]; the state is the [trends] dictionary, the
    [major_stories] list and the articles gone through. *)
Definition analyze_step (st : Trends * list Article * list Article) (r : RawArticle)
    : Trends * list Article * list Article :=
  let '(trends, major_stories, done) := st in
  let text := lower (r_title r +:+ " " +:+ r_description r) in
  let article := analyzed r in
  let importance := importance article in
  let trends :=
    {| ai_stories :=
         append_if (any_in (ai_terms ++ ai_companies) text) article (ai_stories trends);
       security_stories :=
         append_if (any_in security_terms text) article (security_stories trends);
       startup_funding :=
         append_if (any_in funding_terms text) article (startup_funding trends);
       big_tech_moves :=
         append_if (any_in big_tech_terms text) article (big_tech_moves trends);
       breakthrough_tech :=
         append_if (any_in breakthrough_terms text) article (breakthrough_tech trends);
       regulatory_news :=
         append_if (any_in regulatory_terms text) article (regulatory_news trends) |} in
  let major_stories := append_if (Qgeb importance 2) article major_stories in
  (trends, major_stories, done ++ [article]).

Definition sort_key (a : Article) : Q * datetime := (importance a, a_published a).

Definition empty_trends : Trends :=
  {| ai_stories := []; security_stories := []; startup_funding := [];
     big_tech_moves := []; breakthrough_tech := []; regulatory_news := [] |}.

Definition analyze_article_trends (articles : list RawArticle) : Analysis :=
  let '(trends, major_stories, articles) :=
    foldl analyze_step (empty_trends, [], []) articles in
  let major_stories := sort_desc key_gtb sort_key major_stories in
  {| articles := articles;
     trends := trends;
     major_stories := take 10 major_stories;
     stats := {| total_articles := length articles;
                 ai_focus := length (ai_stories trends);
                 security_focus := length (security_stories trends);
                 funding_stories := length (startup_funding trends);
                 big_tech_stories := length (big_tech_moves trends) |} |}.

Definition fetch_and_analyze_articles (w : World) (sources : list Source) : Analysis :=
  analyze_article_trends (fetch_articles w sources).


(** The [themes] list of [create_realistic_industry_recap]. *)
Definition themes (analysis : Analysis) : list (string * list Article) :=
  let stats := stats analysis in
  let trends := trends analysis in
  (if (3 <=? ai_focus stats)%nat
   then [("AI Innovation Surge", take 3 (ai_stories trends))] else [])
  ++ (if (2 <=? security_focus stats)%nat
      then [("Cybersecurity Spotlight", take 2 (security_stories trends))] else [])
  ++ (if (3 <=? big_tech_stories stats)%nat
      then [("Big Tech Strategic Moves", take 3 (big_tech_moves trends))] else [])
  ++ (if (2 <=? funding_stories stats)%nat
      then [("Startup Funding Landscape", take 3 (startup_funding trends))] else []).

End EnhancedTechRecap.

(* ===================================================================== *)
(** ** [uuid.uuid5] of the Python library: SHA-1 of namespace and name *)
(* ===================================================================== *)

Module Uuid.

(** Bytes and 32-bit words are integers kept in range by [Z.land]. *)
Definition mask32 (x : Z) : Z := Z.land x 4294967295.
Definition add32 (x y : Z) : Z := mask32 (x + y).
Definition rotl32 (n x : Z) : Z :=
  mask32 (Z.lor (Z.shiftl x n) (Z.shiftr (mask32 x) (32 - n))).

(** [bytes(name, 'utf-8')] on code points below 256. *)
Fixpoint utf8 (s : string) : list Z :=
  match s with
  | EmptyString => []
  | String c s' =>
      let n := Z.of_nat (nat_of_ascii c) in
      if n <? 128 then n :: utf8 s'
      else (192 + Z.shiftr n 6) :: (128 + Z.land n 63) :: utf8 s'
  end.

(** Big-endian bytes of [x], [n] of them. *)
Fixpoint be_bytes (n : nat) (x : Z) : list Z :=
  match n with
  | O => []
  | S n' => Z.land (Z.shiftr x (8 * Z.of_nat n')) 255 :: be_bytes n' x
  end.

Definition be_word (b0 b1 b2 b3 : Z) : Z :=
  Z.lor (Z.shiftl b0 24) (Z.lor (Z.shiftl b1 16) (Z.lor (Z.shiftl b2 8) b3)).

(** The message followed by the byte 128, zero bytes up to 56 modulo 64,
    and the bit length on 8 bytes. *)
Definition sha1_pad (msg : list Z) : list Z :=
  let len := Z.of_nat (length msg) in
  let zeros := Z.to_nat ((55 - len) mod 64) in
  msg ++ [128] ++ repeat 0 zeros ++ be_bytes 8 (8 * len).

Fixpoint words_of (fuel : nat) (bytes : list Z) : list Z :=
  match fuel, bytes with
  | S fuel', b0 :: b1 :: b2 :: b3 :: rest => be_word b0 b1 b2 b3 :: words_of fuel' rest
  | _, _ => []
  end.

(** The message schedule, most recent word first: [n] more words after
    the ones of [rev_w]. *)
Fixpoint schedule (n : nat) (rev_w : list Z) : list Z :=
  match n with
  | O => rev_w
  | S n' =>
      let w := rotl32 1 (Z.lxor (nth 2 rev_w 0)
                          (Z.lxor (nth 7 rev_w 0)
                             (Z.lxor (nth 13 rev_w 0) (nth 15 rev_w 0)))) in
      schedule n' (w :: rev_w)
  end.

Definition sha1_f (t : nat) (b c d : Z) : Z :=
  if (t <? 20)%nat then Z.lor (Z.land b c) (Z.land (Z.lxor b 4294967295) d)
  else if (t <? 40)%nat then Z.lxor b (Z.lxor c d)
  else if (t <? 60)%nat then Z.lor (Z.land b c) (Z.lor (Z.land b d) (Z.land c d))
  else Z.lxor b (Z.lxor c d).

Definition sha1_k (t : nat) : Z :=
  if (t <? 20)%nat then 1518500249
  else if (t <? 40)%nat then 1859775393
  else if (t <? 60)%nat then 2400959708
  else 3395469782.

Definition state : Type := Z * Z * Z * Z * Z.

Fixpoint rounds (t : nat) (ws : list Z) (st : state) : state :=
  match ws with
  | [] => st
  | w :: ws' =>
      let '(a, b, c, d, e) := st in
      let temp := add32 (add32 (add32 (add32 (rotl32 5 a) (sha1_f t b c d)) e) (sha1_k t)) w in
      rounds (S t) ws' (temp, a, rotl32 30 b, c, d)
  end.

Definition compress (h : state) (block : list Z) : state :=
  let ws := rev (schedule 64 (rev (words_of 16 block))) in
  let '(h0, h1, h2, h3, h4) := h in
  let '(a, b, c, d, e) := rounds 0 ws h in
  (add32 h0 a, add32 h1 b, add32 h2 c, add32 h3 d, add32 h4 e).

Fixpoint blocks (fuel : nat) (bytes : list Z) (h : state) : state :=
  match fuel, bytes with
  | S fuel', _ :: _ => blocks fuel' (drop 64 bytes) (compress h (take 64 bytes))
  | _, _ => h
  end.

(** The 20 bytes of the SHA-1 digest. *)
Definition sha1 (msg : list Z) : list Z :=
  let padded := sha1_pad msg in
  let '(h0, h1, h2, h3, h4) :=
    blocks (length padded) padded
      (1732584193, 4023233417, 2562383102, 271733878, 3285377520) in
  be_bytes 4 h0 ++ be_bytes 4 h1 ++ be_bytes 4 h2 ++ be_bytes 4 h3 ++ be_bytes 4 h4.

(** [uuid.NAMESPACE_URL.bytes]: 6ba7b811-9dad-11d1-80b4-00c04fd430c8. *)
Definition NAMESPACE_URL : list Z :=
  [107; 167; 184; 17; 157; 173; 17; 209; 128; 180; 0; 192; 79; 212; 48; 200].

(** [UUID(bytes=hash[:16], version=5)]: the version and variant bits are
    forced on the first 16 bytes of the digest. *)
Definition set_version (bytes : list Z) : list Z :=
  let bytes := take 16 bytes in
  let bytes := alter (fun b => Z.lor (Z.land b 15) 80) 6%nat bytes in
  alter (fun b => Z.lor (Z.land b 63) 128) 8%nat bytes.

Definition uuid5 (namespace : list Z) (name : string) : list Z :=
  set_version (sha1 (namespace ++ utf8 name)).

Definition hex_digit (n : Z) : ascii :=
  if n <? 10 then ascii_of_nat (48 + Z.to_nat n) else ascii_of_nat (87 + Z.to_nat n).

Fixpoint hex (bytes : list Z) : string :=
  match bytes with
  | [] => EmptyString
  | b :: rest => String (hex_digit (Z.shiftr b 4)) (String (hex_digit (Z.land b 15)) (hex rest))
  end.

(** [str(u)]: the 8-4-4-4-12 text of a UUID. *)
Definition str (u : list Z) : string :=
  hex (take 4 u) +:+ "-" +:+ hex (take 2 (drop 4 u)) +:+ "-" +:+ hex (take 2 (drop 6 u))
  +:+ "-" +:+ hex (take 2 (drop 8 u)) +:+ "-" +:+ hex (drop 10 u).

End Uuid.

(* ===================================================================== *)
(** ** test_ai_summarization.py *)
(* ===================================================================== *)

Module MoningAITester.

Import Feedparser.

Record Source : Type := mkSource {
  name : string;
  url : string
}.

Definition rss_sources : list Source :=
  [ {| name := "TechCrunch"; url := "https://techcrunch.com/feed/" |};
    {| name := "The Verge"; url := "https://www.theverge.com/rss/index.xml" |};
    {| name := "Ars Technica"; url := "https://feeds.arstechnica.com/arstechnica/index" |};
    {| name := "MIT Technology Review"; url := "https://www.technologyreview.com/feed/" |};
    {| name := "Wired"; url := "https://www.wired.com/feed/rss" |} ].

Record Article : Type := mkArticle {
  id : string;
  a_title : string;
  a_url : string;
  a_content : string;
  a_source : string;
  a_published : string;
  a_author : string
}.

(** The article built from the latest entry of a feed. *)
Definition article_of_entry (source : Source) (entry : Entry) : result Article :=
  article_url ← getattr "link" (link entry);
  let content := get (content entry) [] in
  let description := get (description entry) "" in
  let article_content :=
    match content with
    | first :: _ => get first description
    | [] => description
    end in
  let article_id := Uuid.str (Uuid.uuid5 Uuid.NAMESPACE_URL article_url) in
  title ← getattr "title" (title entry);
  mret {| id := article_id;
          a_title := title;
          a_url := article_url;
          a_content := article_content;
          a_source := name source;
          a_published := get (published entry) "Unknown";
          a_author := get (author entry) "Unknown" |}.

(** The [for source in sources] loop: the article of the first source
    whose feed has an entry from which the article is built. *)
Fixpoint first_article (parse : string -> result Feed) (sources : list Source)
    : option Article :=
  match sources with
  | [] => None
  | source :: rest =>
      match parse (url source) with
      | Ok feed =>
          match entries feed with
          | entry :: _ =>
              match article_of_entry source entry with
              | Ok article => Some article
              | Raise _ => first_article parse rest
              end
          | [] => first_article parse rest
          end
      | Raise _ => first_article parse rest
      end
  end.

Definition fetch_latest_article (parse : string -> result Feed)
    (rss_sources : list Source) (source_name : option string) : option Article :=
  if truthy_opt source_name
  then
    let sources :=
      filter (fun s => name s = get source_name "") rss_sources in
    match sources with
    | [] => None
    | _ => first_article parse sources
    end
  else first_article parse rss_sources.

End MoningAITester.

(* ===================================================================== *)
(** ** Notions used to state the properties *)
(* ===================================================================== *)

Module Notions.

Import ApiHandler.






(** An entry with no attribute at all. *)
Definition bare_entry : Feedparser.Entry :=
  {| Feedparser.title := None; Feedparser.link := None;
     Feedparser.description := None; Feedparser.summary := None;
     Feedparser.summary_detail := None; Feedparser.content := None;
     Feedparser.published_parsed := None; Feedparser.updated_parsed := None;
     Feedparser.published := None; Feedparser.author := None |}.

(** An entry with a title, a link and a publication date. *)
Definition story (title link : string) (published : datetime) : Feedparser.Entry :=
  {| Feedparser.title := Some title; Feedparser.link := Some link;
     Feedparser.description := Some "A description."; Feedparser.summary := None;
     Feedparser.summary_detail := None; Feedparser.content := None;
     Feedparser.published_parsed := Some published; Feedparser.updated_parsed := None;
     Feedparser.published := None; Feedparser.author := None |}.

(** The same entry without its title. *)
Definition untitled (link : string) (published : datetime) : Feedparser.Entry :=
  {| Feedparser.title := None; Feedparser.link := Some link;
     Feedparser.description := Some "A description."; Feedparser.summary := None;
     Feedparser.summary_detail := None; Feedparser.content := None;
     Feedparser.published_parsed := Some published; Feedparser.updated_parsed := None;
     Feedparser.published := None; Feedparser.author := None |}.

(** Every feed holds the one given list of entries. *)
Definition same_feed (entries : list Feedparser.Entry) (url : string)
    : result Feedparser.Feed :=
  Ok {| Feedparser.entries := entries |}.

(** The feed at [url] holds [entries]; every other feed holds one story. *)
Definition feeds_with (url : string) (entries : list Feedparser.Entry) (u : string)
    : result Feedparser.Feed :=
  if String.eqb u url
  then Ok {| Feedparser.entries := entries |}
  else Ok {| Feedparser.entries := [story "Other story" "https://example.org/other" 0] |}.

(** The feed at [url] cannot be fetched; every other feed holds one story. *)
Definition feeds_without (url : string) (u : string) : result Feedparser.Feed :=
  if String.eqb u url
  then Raise "connection reset by peer"
  else Ok {| Feedparser.entries := [story "Other story" "https://example.org/other" 0] |}.



(** An article is warm at position [k] when the table holds, under its
    id, a non-empty summary that is fresh at the time of the read. *)
Definition warm (env : nat -> BatchSummarizer.Ext) (table : gmap string Item) (k : nat)
    (a : BatchSummarizer.Article)
    : Prop :=
  exists article_id item created text,
    BatchSummarizer.id a = Some article_id
    /\ article_id <> ""
    /\ table !! article_id = Some item
    /\ created_at item = Some created
    /\ DynamoDB.summary item = Some text
    /\ text <> ""
    /\ BatchSummarizer.read_fault (env k) = None
    /\ BatchSummarizer.read_now (env k) - created < timedelta_hours BatchSummarizer.CACHE_DURATION_HOURS.

(** A text of [n] characters. *)
Fixpoint padding (n : nat) : string :=
  match n with
  | O => EmptyString
  | S n' => String "x" (padding n')
  end.

(** [d.get(key, 0)] on a dictionary of counts. *)
Fixpoint count_of (key : string) (d : list (string * Z)) : Z :=
  match d with
  | [] => 0
  | (k, v) :: d' => if String.eqb k key then v else count_of key d'
  end.

(** Sum of the values of a dictionary of counts. *)
Fixpoint total_count (d : list (string * Z)) : Z :=
  match d with
  | [] => 0
  | (_, v) :: d' => v + total_count d'
  end.

(** Whether an analyzed article carries a category tag. *)
Definition has_category (tag : string) (a : EnhancedTechRecap.Article) : bool :=
  existsb (String.eqb tag) (EnhancedTechRecap.categories a).

(** The text [analyze_article_trends] matches its terms against. *)
Definition trend_text (r : EnhancedTechRecap.RawArticle) : string :=
  lower (EnhancedTechRecap.r_title r +:+ " " +:+ EnhancedTechRecap.r_description r).

(** A source gives no article to [fetch_latest_article]: its feed cannot
    be parsed, or has no entry, or its latest entry lacks a link or a
    title. *)
Definition unusable (parse : string -> result Feedparser.Feed)
    (s : MoningAITester.Source) : Prop :=
  match parse (MoningAITester.url s) with
  | Raise _ => True
  | Ok feed =>
      match Feedparser.entries feed with
      | [] => True
      | entry :: _ =>
          match MoningAITester.article_of_entry s entry with
          | Raise _ => True
          | Ok _ => False
          end
      end
  end.

End Notions.

(* ===================================================================== *)
(** * Properties *)
(* ===================================================================== *)

Section BuiltIns.

(** The built-ins agree with Python on sample values. *)

Example lower_sample : lower "OpenAI Announces GPT-5" = "openai announces gpt-5".
Proof. reflexivity. Qed.

Example strip_sample : strip ("  two words " +:+ nl) = "two words".
Proof. reflexivity. Qed.

Example strip_tags_sample :
  strip_tags "<p>Hello <b>world</b></p> a <> b < c <a<b> y >" = "Hello world a <> b  y >".
Proof. reflexivity. Qed.

Example replace_sample : replace "&amp;" "&" "R&amp;D &amp;&amp; more" = "R&D && more".
Proof. reflexivity. Qed.

Example contains_sample : contains "ai" "startup raised" = true /\ contains "ai" "a i" = false.
Proof. split; reflexivity. Qed.

Example slice_to_sample :
  slice_to 2 [1; 2; 3] = [1; 2] /\ slice_to 5 [1; 2; 3] = [1; 2; 3]
  /\ slice_to (-1) [1; 2; 3] = [1; 2] /\ slice_to (-5) [1; 2; 3] = [].
Proof. repeat split; reflexivity. Qed.

(** The sort is stable: "b" stays before "c", "a" before "d". *)
Example sort_desc_sample :
  sort_desc key_gtb (fun x : string * Q => (snd x, 0))
    [("a", 1%Q); ("b", 2%Q); ("c", 2%Q); ("d", 1%Q)]
  = [("b", 2%Q); ("c", 2%Q); ("a", 1%Q); ("d", 1%Q)].
Proof. reflexivity. Qed.

End BuiltIns.

Section CacheFreshness.

Import BatchSummarizer.

(** A read of an entry written at [t0] and read at [now]. *)
Lemma get_cached_summary_unfold (now : datetime) (table : gmap string Item)
    (article_id : string) (item : Item) (created : datetime) :
  table !! article_id = Some item ->
  created_at item = Some created ->
  get_cached_summary None now table article_id =
    if now - created <? timedelta_hours CACHE_DURATION_HOURS
    then summary item
    else None.
Proof.
  intros Hlook Hcreated.
  unfold get_cached_summary, get_item. cbn.
  rewrite Hlook. cbn. rewrite Hcreated. cbn.
  destruct (now - created <? timedelta_hours CACHE_DURATION_HOURS); [|reflexivity].
  destruct (summary item); reflexivity.
Qed.

Lemma cache_summary_lookup (t0 : datetime) (table : gmap string Item)
    (article_id text : string) (meta : dict) :
  cache_summary None t0 table article_id text meta !! article_id =
    Some {| summary := Some text;
            created_at := Some t0;
            ttl := Some (int_timestamp (t0 + timedelta_days 30));
            model_used := Some MODEL_ID;
            metadata := Some meta |}.
Proof.
  unfold cache_summary, put_item. cbn. apply lookup_insert_eq.
Qed.

(** C1.  After [cache_summary] has written the entry of [article_id] at
    time [t0], a [get_cached_summary] at time [now] returns the stored
    text unchanged while [now - t0] is under 24 hours, and returns
    [None] once 24 hours have elapsed; the read leaves the item in the
    table, with a [ttl] 30 days after [t0], which is still ahead of the
    clock for every read less than 30 days after the write. *)
Theorem cache_get_after_put (table : gmap string Item) (article_id text : string)
    (meta : dict) (t0 now : datetime) :
  let table' := cache_summary None t0 table article_id text meta in
  (now - t0 < timedelta_hours CACHE_DURATION_HOURS ->
     get_cached_summary None now table' article_id = Some text)
  /\ (timedelta_hours CACHE_DURATION_HOURS <= now - t0 ->
        get_cached_summary None now table' article_id = None
        /\ exists item,
             table' !! article_id = Some item
             /\ summary item = Some text
             /\ ttl item = Some (int_timestamp (t0 + timedelta_days 30))
             /\ (now - t0 < timedelta_days 30 ->
                   int_timestamp now <= int_timestamp (t0 + timedelta_days 30))).
Proof.
  intros table'.
  pose proof (cache_summary_lookup t0 table article_id text meta) as Hlook.
  fold table' in Hlook.
  split.
  - intros Hfresh.
    rewrite (get_cached_summary_unfold now _ _ _ t0 Hlook eq_refl).
    apply Z.ltb_lt in Hfresh. rewrite Hfresh. reflexivity.
  - intros Hstale. split.
    + rewrite (get_cached_summary_unfold now _ _ _ t0 Hlook eq_refl).
      apply Z.ltb_ge in Hstale. rewrite Hstale. reflexivity.
    + eexists. split; [exact Hlook|]. cbn. repeat split.
      intros Hkept. unfold int_timestamp.
      apply Z.quot_le_mono; lia.
Qed.

Lemma cache_get_after_put_witness :
  get_cached_summary None (timedelta_hours 23)
    (cache_summary None 0 ∅ "a1" "A summary of the article." []) "a1"
    = Some "A summary of the article."
  /\ get_cached_summary None (timedelta_hours 24)
       (cache_summary None 0 ∅ "a1" "A summary of the article." []) "a1"
     = None.
Proof.
  split.
  - apply (cache_get_after_put ∅ "a1" "A summary of the article." [] 0 (timedelta_hours 23)).
    vm_compute. reflexivity.
  - apply (cache_get_after_put ∅ "a1" "A summary of the article." [] 0 (timedelta_hours 24)).
    vm_compute. discriminate.
Defined.

End CacheFreshness.

Section ApiReads.

Import ApiHandler Notions.

Lemma truthy_true (s : string) : truthy s = true <-> s <> "".
Proof. destruct s; cbn; split; congruence. Qed.













End ApiReads.

Section BatchProcessing.

Import BatchSummarizer.




Lemma process_article_counts (e : Ext) (a : Article) (table : gmap string Item)
    (r : Results) :
  let r' := snd (process_article e a (table, r)) in
  new_summaries r' + cached_summaries r' + Z.of_nat (length (errors r')) =
    new_summaries r + cached_summaries r + Z.of_nat (length (errors r)) + 1.
Proof.
  unfold process_article.
  repeat match goal with
         | |- context [if ?b then _ else _] => destruct b
         | |- context [match ?o with Some _ => _ | None => _ end] => destruct o
         end;
    cbn; rewrite ?length_app; cbn; lia.
Qed.

Lemma process_loop_counts (env : nat -> Ext) (articles : list Article) :
  forall (i : nat) (table : gmap string Item) (r : Results),
    let r' := snd (process_loop env i articles (table, r)) in
    new_summaries r' + cached_summaries r' + Z.of_nat (length (errors r')) =
      new_summaries r + cached_summaries r + Z.of_nat (length (errors r))
      + Z.of_nat (length articles).
Proof.
  induction articles as [|a rest IH]; intros i table r; cbn [process_loop length].
  - cbn. lia.
  - pose proof (process_article_counts (env i) a table r) as Hstep.
    destruct (process_article (env i) a (table, r)) as [table1 r1].
    cbn [snd] in Hstep. cbv zeta in IH. rewrite IH. cbv zeta in Hstep. lia.
Qed.

(** Every article of a batch contributes to exactly one counter. *)
Lemma batch_counters_partition (env : nat -> Ext) (start_time end_time : datetime)
    (table : gmap string Item) (articles : list Article) :
  let r := snd (process_articles_batch env start_time end_time table articles) in
  new_summaries r + cached_summaries r + Z.of_nat (length (errors r)) =
    Z.of_nat (length articles).
Proof.
  unfold process_articles_batch.
  pose proof (process_loop_counts env articles 0 table initial_results) as H.
  destruct (process_loop env 0 articles (table, initial_results)) as [table' r'].
  cbn in *. lia.
Qed.

(** With [batch_size] missing or not negative at most 50 articles are
    processed. *)
Lemma processed_at_most_50 (env : nat -> Ext) (start_time end_time : datetime)
    (table : gmap string Item) (event : Event)
    (trigger model : string) (processed generated cached : Z)
    (errs : list string) (seconds : Q) :
  0 <= get (ev_batch_size event) MAX_ARTICLES_PER_BATCH ->
  body (snd (lambda_handler env start_time end_time table event)) =
    Processed trigger processed generated cached errs model seconds ->
  processed <= 50
  /\ generated + cached + Z.of_nat (length errs) = processed.
Proof.
  intros Hsize. unfold lambda_handler.
  destruct (get (ev_articles event) []) as [|a rest] eqn:Harticles; [discriminate|].
  set (batch_size := Z.min _ _).
  set (kept := if batch_size <? _ then _ else _).
  pose proof (batch_counters_partition env start_time end_time table kept) as Hpart.
  destruct (process_articles_batch env start_time end_time table kept) as [table' r].
  cbn [snd body]. intros [= <- <- <- <- <- <- <-]. cbn [snd] in Hpart.
  split; [|exact Hpart].
  subst kept. unfold MAX_ARTICLES_PER_BATCH in *.
  destruct (batch_size <? Z.of_nat (length (a :: rest))) eqn:E.
  - unfold slice_to. assert ((batch_size <? 0) = false) as -> by (apply Z.ltb_ge; lia).
    rewrite length_take. lia.
  - apply Z.ltb_ge in E. lia.
Qed.




(** C9 fails on the code for a negative [batch_size]: of 52 articles sent
    with [batch_size = -1] the handler keeps 51 and reports 51 processed. *)
Lemma negative_batch_size_escapes_cap :
  let a := {| id := None; title := None; content := None; source := None;
              category := None |} in
  let e := {| read_fault := None; read_now := 0;
              invoke_model := fun _ => Raise "unused";
              write_fault := None; write_now := 0 |} in
  let event := {| ev_articles := Some (repeat a 52); ev_trigger := None;
                  ev_batch_size := Some (-1) |} in
  snd (lambda_handler (fun _ => e) 0 0 ∅ event) =
    {| statusCode := 200;
       body := Processed "manual" 51 0 0 (repeat "Article missing 'id' field" 51)
                 MODEL_ID (0 # 1000000) |}.
Proof. vm_compute. reflexivity. Qed.

End BatchProcessing.

Section Scoring.

Import TechIndustryRecap Notions.





End Scoring.

Section Categories.

Import Notions.

(** Membership in a list written out. *)
Ltac in_list :=
  solve [ repeat (apply elem_of_cons; first [ left; reflexivity | right ]) ].

Lemma tech_category_label (title description : string) :
  TechIndustryRecap.categorize_article title description
    ∈ ["AI & Machine Learning"; "Crypto & Web3"; "Startups & Funding"; "Big Tech";
       "Cybersecurity"; "General Tech"].
Proof.
  unfold TechIndustryRecap.categorize_article.
  repeat match goal with |- context [if ?b then _ else _] => destruct b end;
    in_list.
Qed.

Lemma first_match_key (text : string) (kws : list (string * list string)) (c : string) :
  IndustryWeeklyRecap.first_match kws text = Some c -> c ∈ map fst kws.
Proof.
  induction kws as [|[k terms] rest IH]; cbn; [discriminate|].
  destruct (any_in terms text).
  - intros [= ->]. apply elem_of_cons. left. reflexivity.
  - intros H. apply elem_of_cons. right. exact (IH H).
Qed.

Lemma category_of_key (a : IndustryWeeklyRecap.Article) :
  IndustryWeeklyRecap.category_of a ∈ map fst IndustryWeeklyRecap.empty_categories.
Proof.
  unfold IndustryWeeklyRecap.category_of.
  destruct (IndustryWeeklyRecap.first_match _ _) as [c|] eqn:E.
  - apply first_match_key in E. cbn in E |- *.
    repeat (apply elem_of_cons in E as [->|E]); try in_list.
    apply elem_of_nil in E. contradiction.
  - cbn. in_list.
Qed.

Lemma bucket_append_keys (c : string) (a : IndustryWeeklyRecap.Article)
    (cats : list (string * list IndustryWeeklyRecap.Article)) :
  map fst (IndustryWeeklyRecap.bucket_append c a cats) = map fst cats.
Proof.
  induction cats as [|[k l] rest IH]; cbn; [reflexivity|].
  destruct (String.eqb k c); cbn; [reflexivity | f_equal; exact IH].
Qed.

Lemma bucket_append_perm (c : string) (a : IndustryWeeklyRecap.Article)
    (cats : list (string * list IndustryWeeklyRecap.Article)) :
  c ∈ map fst cats ->
  concat (map snd (IndustryWeeklyRecap.bucket_append c a cats))
    ≡ₚ a :: concat (map snd cats).
Proof.
  induction cats as [|[k l] rest IH]; cbn.
  - intros H. apply elem_of_nil in H. contradiction.
  - intros Hin. destruct (String.eqb k c) eqn:E; cbn.
    + rewrite <- app_assoc. cbn.
      rewrite <- Permutation_middle. reflexivity.
    + apply elem_of_cons in Hin as [->|Hin].
      * rewrite String.eqb_refl in E. discriminate.
      * rewrite (IH Hin). rewrite Permutation_middle. reflexivity.
Qed.

Lemma bucket_append_filed (c : string) (a : IndustryWeeklyRecap.Article)
    (cats : list (string * list IndustryWeeklyRecap.Article)) :
  c ∈ map fst cats ->
  exists bucket, (c, bucket) ∈ IndustryWeeklyRecap.bucket_append c a cats /\ a ∈ bucket.
Proof.
  induction cats as [|[k l] rest IH]; cbn.
  - intros H. apply elem_of_nil in H. contradiction.
  - intros Hin. destruct (String.eqb k c) eqn:E.
    + apply String.eqb_eq in E as ->. exists (l ++ [a]). split.
      * apply elem_of_cons. left. reflexivity.
      * apply elem_of_app. right. apply elem_of_cons. left. reflexivity.
    + apply elem_of_cons in Hin as [->|Hin].
      * rewrite String.eqb_refl in E. discriminate.
      * destruct (IH Hin) as (bucket & Hb & Ha). exists bucket. split; [|exact Ha].
        apply elem_of_cons. right. exact Hb.
Qed.

Lemma bucket_append_kept (c c' : string) (a a' : IndustryWeeklyRecap.Article)
    (cats : list (string * list IndustryWeeklyRecap.Article))
    (bucket : list IndustryWeeklyRecap.Article) :
  (c, bucket) ∈ cats -> a ∈ bucket ->
  exists bucket', (c, bucket') ∈ IndustryWeeklyRecap.bucket_append c' a' cats /\ a ∈ bucket'.
Proof.
  induction cats as [|[k l] rest IH]; cbn.
  - intros H. apply elem_of_nil in H. contradiction.
  - intros Hin Ha. destruct (String.eqb k c') eqn:E.
    + apply elem_of_cons in Hin as [[= <- <-]|Hin].
      * exists (bucket ++ [a']). split.
        -- apply elem_of_cons. left. reflexivity.
        -- apply elem_of_app. left. exact Ha.
      * exists bucket. split; [|exact Ha]. apply elem_of_cons. right. exact Hin.
    + apply elem_of_cons in Hin as [[= <- <-]|Hin].
      * exists bucket. split; [|exact Ha]. apply elem_of_cons. left. reflexivity.
      * destruct (IH Hin Ha) as (bucket' & Hb & Ha'). exists bucket'. split; [|exact Ha'].
        apply elem_of_cons. right. exact Hb.
Qed.

Lemma categorize_fold_perm (articles : list IndustryWeeklyRecap.Article) :
  forall cats : list (string * list IndustryWeeklyRecap.Article),
    map fst cats = map fst IndustryWeeklyRecap.empty_categories ->
    concat (map snd
              (foldl (fun categories article =>
                        IndustryWeeklyRecap.bucket_append
                          (IndustryWeeklyRecap.category_of article) article categories)
                 cats articles))
      ≡ₚ concat (map snd cats) ++ articles.
Proof.
  induction articles as [|a rest IH]; intros cats Hkeys; cbn [foldl].
  - rewrite app_nil_r. reflexivity.
  - rewrite IH by (rewrite bucket_append_keys; exact Hkeys).
    rewrite bucket_append_perm by (rewrite Hkeys; apply category_of_key).
    cbn. rewrite Permutation_middle. reflexivity.
Qed.

Lemma categorize_fold_filed (articles : list IndustryWeeklyRecap.Article) :
  forall cats : list (string * list IndustryWeeklyRecap.Article),
    map fst cats = map fst IndustryWeeklyRecap.empty_categories ->
    forall a,
      (a ∈ articles
       \/ exists bucket, (IndustryWeeklyRecap.category_of a, bucket) ∈ cats /\ a ∈ bucket) ->
      exists bucket,
        (IndustryWeeklyRecap.category_of a, bucket)
          ∈ foldl (fun categories article =>
                     IndustryWeeklyRecap.bucket_append
                       (IndustryWeeklyRecap.category_of article) article categories)
              cats articles
        /\ a ∈ bucket.
Proof.
  induction articles as [|a' rest IH]; intros cats Hkeys a Ha; cbn [foldl].
  - destruct Ha as [Ha|Ha]; [apply elem_of_nil in Ha; contradiction | exact Ha].
  - apply IH; [rewrite bucket_append_keys; exact Hkeys|].
    destruct Ha as [Ha|(bucket & Hb & Hin)].
    + apply elem_of_cons in Ha as [->|Ha]; [right | left; exact Ha].
      apply bucket_append_filed. rewrite Hkeys. apply category_of_key.
    + right. eapply bucket_append_kept; eassumption.
Qed.

Lemma classify_empty (text : string) :
  fst (EnhancedTechRecap.classify text) = [] <->
    any_in (EnhancedTechRecap.ai_terms ++ EnhancedTechRecap.ai_companies) text = false
    /\ any_in EnhancedTechRecap.security_terms text = false
    /\ any_in EnhancedTechRecap.funding_terms text = false
    /\ any_in EnhancedTechRecap.big_tech_terms text = false
    /\ any_in EnhancedTechRecap.regulatory_terms text = false.
Proof.
  unfold EnhancedTechRecap.classify.
  destruct (any_in (EnhancedTechRecap.ai_terms ++ EnhancedTechRecap.ai_companies) text),
    (any_in EnhancedTechRecap.security_terms text),
    (any_in EnhancedTechRecap.funding_terms text),
    (any_in EnhancedTechRecap.big_tech_terms text),
    (any_in EnhancedTechRecap.breakthrough_terms text),
    (any_in EnhancedTechRecap.regulatory_terms text); cbn;
    split; intros H; try discriminate; try reflexivity;
    repeat split; try reflexivity; destruct H as (? & ? & ? & ? & ?); discriminate.
Qed.

Lemma analyze_fold (raws : list EnhancedTechRecap.RawArticle) :
  forall (trends : EnhancedTechRecap.Trends)
         (major done : list EnhancedTechRecap.Article),
    let st := foldl EnhancedTechRecap.analyze_step (trends, major, done) raws in
    snd st = done ++ map EnhancedTechRecap.analyzed raws
    /\ snd (fst st) =
         major ++ List.filter (fun a => Qgeb (EnhancedTechRecap.importance a) 2)
                    (map EnhancedTechRecap.analyzed raws).
Proof.
  induction raws as [|r rest IH]; intros trends major done; cbn [foldl map List.filter].
  - rewrite !app_nil_r. split; reflexivity.
  - unfold EnhancedTechRecap.analyze_step at 2 4.
    match goal with |- context [foldl _ (?t, ?m, ?d) rest] =>
      destruct (IH t m d) as [Hdone Hmajor] end.
    cbv zeta in Hdone, Hmajor. rewrite Hdone, Hmajor.
    unfold EnhancedTechRecap.append_if.
    split; [rewrite <- app_assoc; reflexivity|].
    destruct (Qgeb (EnhancedTechRecap.importance (EnhancedTechRecap.analyzed r)) 2);
      [rewrite <- app_assoc|]; reflexivity.
Qed.

Lemma analysis_articles (raws : list EnhancedTechRecap.RawArticle) :
  EnhancedTechRecap.articles (EnhancedTechRecap.analyze_article_trends raws) =
    map EnhancedTechRecap.analyzed raws.
Proof.
  unfold EnhancedTechRecap.analyze_article_trends.
  pose proof (analyze_fold raws EnhancedTechRecap.empty_trends [] []) as [Hdone _].
  destruct (foldl _ _ raws) as [[trends major] done]. cbn in *. exact Hdone.
Qed.

Lemma analysis_major_stories (raws : list EnhancedTechRecap.RawArticle) :
  EnhancedTechRecap.major_stories (EnhancedTechRecap.analyze_article_trends raws) =
    take 10 (sort_desc key_gtb EnhancedTechRecap.sort_key
               (List.filter (fun a => Qgeb (EnhancedTechRecap.importance a) 2)
                  (map EnhancedTechRecap.analyzed raws))).
Proof.
  unfold EnhancedTechRecap.analyze_article_trends.
  pose proof (analyze_fold raws EnhancedTechRecap.empty_trends [] []) as [_ Hmajor].
  destruct (foldl _ _ raws) as [[trends major] done]. cbn in *. rewrite Hmajor. reflexivity.
Qed.

(** C3, as stated, fails for [analyze_article_trends]: it has no
    fallback category, and an article none of whose keywords match, an
    empty one included, is left with an empty list of categories. *)
Lemma enhanced_recap_leaves_article_uncategorized :
  let blank := {| EnhancedTechRecap.r_title := ""; EnhancedTechRecap.r_url := "";
                  EnhancedTechRecap.r_description := "";
                  EnhancedTechRecap.r_source := "Wired";
                  EnhancedTechRecap.r_published := 0;
                  EnhancedTechRecap.raw_entry := bare_entry |} in
  let plain := {| EnhancedTechRecap.r_title := "Weather report for the weekend";
                  EnhancedTechRecap.r_url := "https://example.org/weather";
                  EnhancedTechRecap.r_description := "Sunny, with a light breeze.";
                  EnhancedTechRecap.r_source := "Wired";
                  EnhancedTechRecap.r_published := 0;
                  EnhancedTechRecap.raw_entry := bare_entry |} in
  map EnhancedTechRecap.categories
    (EnhancedTechRecap.articles (EnhancedTechRecap.analyze_article_trends [blank; plain]))
  = [[]; []].
Proof. vm_compute. reflexivity. Qed.

(** C3, amended.  The two single-label classifiers never leave an
    article uncategorized: [categorize_article] returns one of its six
    labels, 'General Tech' when no keyword list matches, and
    [categorize_articles] files every article in exactly one bucket, the
    one of its category, which is 'other' when no keyword matches.
    [analyze_article_trends] has no fallback: the categories of an article
    are the tags among AI, Security, Funding, Big Tech and Regulatory
    whose terms occur in its text, and the list is empty exactly when none
    occurs. *)
Theorem classifier_fallbacks :
  (forall title description,
     let text := lower (title +:+ " " +:+ description) in
     TechIndustryRecap.categorize_article title description
       ∈ ["AI & Machine Learning"; "Crypto & Web3"; "Startups & Funding"; "Big Tech";
          "Cybersecurity"; "General Tech"]
     /\ (any_in TechIndustryRecap.ai_keywords text = false ->
         any_in TechIndustryRecap.crypto_keywords text = false ->
         any_in TechIndustryRecap.startup_keywords text = false ->
         any_in TechIndustryRecap.big_tech_keywords text = false ->
         any_in TechIndustryRecap.security_keywords text = false ->
         TechIndustryRecap.categorize_article title description = "General Tech"))
  /\ (forall articles,
        concat (map snd (IndustryWeeklyRecap.categorize_articles articles)) ≡ₚ articles
        /\ forall a, a ∈ articles ->
             exists bucket,
               (IndustryWeeklyRecap.category_of a, bucket)
                 ∈ IndustryWeeklyRecap.categorize_articles articles
               /\ a ∈ bucket)
  /\ (forall a,
        IndustryWeeklyRecap.first_match IndustryWeeklyRecap.keywords
          (lower (IndustryWeeklyRecap.a_title a +:+ " " +:+ IndustryWeeklyRecap.a_content a))
          = None ->
        IndustryWeeklyRecap.category_of a = "other")
  /\ (forall raws,
        map EnhancedTechRecap.categories
          (EnhancedTechRecap.articles (EnhancedTechRecap.analyze_article_trends raws)) =
        map (fun r => fst (EnhancedTechRecap.classify
                             (lower (EnhancedTechRecap.r_title r +:+ " "
                                     +:+ EnhancedTechRecap.r_description r)))) raws)
  /\ (forall text,
        fst (EnhancedTechRecap.classify text) = [] <->
          any_in (EnhancedTechRecap.ai_terms ++ EnhancedTechRecap.ai_companies) text = false
          /\ any_in EnhancedTechRecap.security_terms text = false
          /\ any_in EnhancedTechRecap.funding_terms text = false
          /\ any_in EnhancedTechRecap.big_tech_terms text = false
          /\ any_in EnhancedTechRecap.regulatory_terms text = false).
Proof.
  split; [|split; [|split; [|split]]].
  - intros title description text. split; [apply tech_category_label|].
    intros Hai Hcrypto Hstartup Hbig Hsec.
    unfold TechIndustryRecap.categorize_article. fold text.
    rewrite Hai, Hcrypto, Hstartup, Hbig, Hsec. reflexivity.
  - intros articles. split.
    + unfold IndustryWeeklyRecap.categorize_articles.
      rewrite categorize_fold_perm by reflexivity. reflexivity.
    + intros a Ha. apply categorize_fold_filed; [reflexivity | left; exact Ha].
  - intros a Hnone. unfold IndustryWeeklyRecap.category_of. rewrite Hnone. reflexivity.
  - intros raws. rewrite analysis_articles, map_map.
    apply map_ext. intros r. unfold EnhancedTechRecap.analyzed.
    destruct (EnhancedTechRecap.classify _). reflexivity.
  - apply classify_empty.
Qed.

Lemma classifier_fallbacks_witness :
  TechIndustryRecap.categorize_article "" "" = "General Tech".
Proof.
  destruct classifier_fallbacks as (Htech & _).
  destruct (Htech "" "") as (_ & Hfallback).
  apply Hfallback; reflexivity.
Defined.

End Categories.

Section Headline.

Import Notions.

Lemma key_gtb_false (k1 k2 : Q * datetime) :
  key_gtb k1 k2 = false <->
    (fst k1 <= fst k2)%Q /\ ((fst k1 == fst k2)%Q -> snd k1 <= snd k2).
Proof.
  unfold key_gtb, Qltb.
  rewrite orb_false_iff, negb_false_iff, Qle_bool_iff, andb_false_iff.
  split.
  - intros [Hle Hor]. split; [exact Hle|]. intros Heq.
    destruct Hor as [Hne|Hlt].
    + apply Qeq_bool_iff in Heq. congruence.
    + apply Z.ltb_ge in Hlt. exact Hlt.
  - intros [Hle Htie]. split; [exact Hle|].
    destruct (Qeq_bool (fst k1) (fst k2)) eqn:E.
    + right. apply Z.ltb_ge, Htie, Qeq_bool_iff, E.
    + left. reflexivity.
Qed.


Lemma key_le_trans (k1 k2 k3 : Q * datetime) :
  key_gtb k1 k2 = false -> key_gtb k2 k3 = false -> key_gtb k1 k3 = false.
Proof.
  rewrite !key_gtb_false. intros [H12 T12] [H23 T23].
  split; [eapply Qle_trans; eassumption|].
  intros Heq.
  assert (fst k1 == fst k2)%Q as E12.
  { apply Qle_antisym; [exact H12|]. rewrite Heq. exact H23. }
  assert (fst k2 == fst k3)%Q as E23.
  { rewrite <- E12. exact Heq. }
  specialize (T12 E12). specialize (T23 E23). lia.
Qed.

Lemma key_gtb_asym (k1 k2 : Q * datetime) :
  key_gtb k1 k2 = true -> key_gtb k2 k1 = false.
Proof.
  intros Hgt. apply key_gtb_false.
  unfold key_gtb, Qltb in Hgt.
  apply orb_true_iff in Hgt as [Hlt|Htie].
  - apply negb_true_iff in Hlt.
    assert (~ (fst k1 <= fst k2)%Q) as Hnle.
    { intros Hle. apply Qle_bool_iff in Hle. congruence. }
    apply Qnot_le_lt in Hnle. split; [apply Qlt_le_weak; exact Hnle|].
    intros Heq. rewrite Heq in Hnle. apply Qlt_irrefl in Hnle. contradiction.
  - apply andb_true_iff in Htie as [Heq Hlt].
    apply Qeq_bool_iff in Heq. apply Z.ltb_lt in Hlt.
    split; [rewrite Heq; apply Qle_refl | intros _; lia].
Qed.

Section Sorting.

Context {A : Type} (key : A -> Q * datetime).

Lemma insert_desc_perm (x : A) (l : list A) :
  insert_desc key_gtb key x l ≡ₚ x :: l.
Proof.
  induction l as [|y l IH]; cbn [insert_desc]; [reflexivity|].
  destruct (key_gtb (key y) (key x)); [|reflexivity].
  rewrite IH. apply Permutation_swap.
Qed.

Lemma sort_desc_perm (l : list A) : sort_desc key_gtb key l ≡ₚ l.
Proof.
  induction l as [|x l IH]; cbn; [reflexivity|].
  fold (sort_desc key_gtb key l). rewrite insert_desc_perm, IH. reflexivity.
Qed.



End Sorting.

Lemma elem_of_filter_bool {A : Type} (f : A -> bool) (l : list A) (a : A) :
  a ∈ List.filter f l <-> a ∈ l /\ f a = true.
Proof. rewrite !list_elem_of_In. apply filter_In. Qed.




End Headline.

Section Identifier.

Import MoningAITester.

Lemma article_of_entry_id (source : Source) (entry : Feedparser.Entry) (a : Article) :
  article_of_entry source entry = Ok a ->
  id a = Uuid.str (Uuid.uuid5 Uuid.NAMESPACE_URL (a_url a)).
Proof.
  unfold article_of_entry.
  destruct (Feedparser.link entry) as [article_url|]; cbn; [|discriminate].
  destruct (Feedparser.title entry) as [title|]; cbn; [|discriminate].
  intros [= <-]. reflexivity.
Qed.

Lemma first_article_id (parse : string -> result Feedparser.Feed)
    (sources : list Source) (a : Article) :
  first_article parse sources = Some a ->
  id a = Uuid.str (Uuid.uuid5 Uuid.NAMESPACE_URL (a_url a)).
Proof.
  induction sources as [|source rest IH]; cbn [first_article]; [discriminate|].
  destruct (parse (url source)) as [feed|msg]; [|exact IH].
  destruct (Feedparser.entries feed) as [|entry others]; [exact IH|].
  destruct (article_of_entry source entry) as [a'|msg] eqn:E; [|exact IH].
  intros [= <-]. eapply article_of_entry_id. exact E.
Qed.

Lemma fetch_latest_article_id (parse : string -> result Feedparser.Feed)
    (sources : list Source) (source_name : option string) (a : Article) :
  fetch_latest_article parse sources source_name = Some a ->
  id a = Uuid.str (Uuid.uuid5 Uuid.NAMESPACE_URL (a_url a)).
Proof.
  unfold fetch_latest_article.
  destruct (truthy_opt source_name).
  - destruct (filter _ sources) as [|s l]; [discriminate|]. apply first_article_id.
  - apply first_article_id.
Qed.

(** The identifier computed for a URL is the one Python's [uuid.uuid5]
    gives. *)
Example uuid5_of_url :
  Uuid.str (Uuid.uuid5 Uuid.NAMESPACE_URL "https://techcrunch.com/a")
  = "57e65ffd-aa58-5497-a1b1-1577263be2d8".
Proof. vm_compute. reflexivity. Qed.

(** C7.  The identifier of a fetched article is the version-5 UUID of
    its URL under NAMESPACE_URL, and nothing else enters it: two runs,
    over any feeds, any source lists and any source selection, that
    return articles with the same URL give them the same identifier. *)
Theorem article_id_stable (parse1 parse2 : string -> result Feedparser.Feed)
    (sources1 sources2 : list Source) (name1 name2 : option string)
    (a1 a2 : Article) :
  fetch_latest_article parse1 sources1 name1 = Some a1 ->
  fetch_latest_article parse2 sources2 name2 = Some a2 ->
  a_url a1 = a_url a2 ->
  id a1 = id a2
  /\ id a1 = Uuid.str (Uuid.uuid5 Uuid.NAMESPACE_URL (a_url a1)).
Proof.
  intros H1 H2 Hurl.
  apply fetch_latest_article_id in H1, H2.
  split; [|exact H1]. rewrite H1, H2, Hurl. reflexivity.
Qed.

Lemma article_id_stable_witness :
  exists a1 a2,
    fetch_latest_article
      (Notions.same_feed [Notions.story "Morning title" "https://techcrunch.com/a" 0])
      rss_sources None = Some a1
    /\ fetch_latest_article
         (Notions.same_feed [Notions.story "Evening title" "https://techcrunch.com/a" 5])
         rss_sources (Some "Wired") = Some a2
    /\ a_title a1 <> a_title a2
    /\ id a1 = id a2.
Proof.
  exists {| id := "57e65ffd-aa58-5497-a1b1-1577263be2d8"; a_title := "Morning title";
            a_url := "https://techcrunch.com/a"; a_content := "A description.";
            a_source := "TechCrunch"; a_published := "Unknown"; a_author := "Unknown" |},
         {| id := "57e65ffd-aa58-5497-a1b1-1577263be2d8"; a_title := "Evening title";
            a_url := "https://techcrunch.com/a"; a_content := "A description.";
            a_source := "Wired"; a_published := "Unknown"; a_author := "Unknown" |}.
  split; [vm_compute; reflexivity|].
  split; [vm_compute; reflexivity|].
  split; [discriminate|].
  eapply (article_id_stable
            (Notions.same_feed [Notions.story "Morning title" "https://techcrunch.com/a" 0])
            (Notions.same_feed [Notions.story "Evening title" "https://techcrunch.com/a" 5])
            rss_sources rss_sources None (Some "Wired")).
  - vm_compute. reflexivity.
  - vm_compute. reflexivity.
  - reflexivity.
Defined.

End Identifier.

Section Fetching.

Import Notions.

(** A loop over the sources whose body only appends to the accumulator
    gives the concatenation of what each source contributes. *)
Lemma foldl_contributions {S A : Type} (step : list A -> S -> list A) :
  (forall acc s, step acc s = acc ++ step [] s) ->
  forall (srcs : list S) (acc : list A),
    foldl step acc srcs = acc ++ concat (map (step []) srcs).
Proof.
  intros Hstep srcs. induction srcs as [|s rest IH]; intros acc; cbn [foldl map concat].
  - rewrite app_nil_r. reflexivity.
  - rewrite IH, Hstep, <- app_assoc. reflexivity.
Qed.

(** *** tech_industry_recap.py *)

Lemma tech_entries_loop_acc (w : TechIndustryRecap.World) (cutoff : datetime)
    (s : TechIndustryRecap.Source) (entries : list Feedparser.Entry) :
  forall (j : nat) (acc : list TechIndustryRecap.Article),
    TechIndustryRecap.entries_loop w cutoff s j entries acc =
      acc ++ TechIndustryRecap.entries_loop w cutoff s j entries [].
Proof.
  induction entries as [|entry rest IH]; intros j acc; cbn [TechIndustryRecap.entries_loop].
  - rewrite app_nil_r. reflexivity.
  - destruct (TechIndustryRecap.make_article w cutoff s j entry) as [[article|]|msg].
    + rewrite (IH (S j) (acc ++ [article])), (IH (S j) ([] ++ [article])), <- app_assoc.
      reflexivity.
    + apply IH.
    + rewrite app_nil_r. reflexivity.
Qed.

Lemma tech_entries_loop_raise (w : TechIndustryRecap.World) (cutoff : datetime)
    (s : TechIndustryRecap.Source) (bad : Feedparser.Entry)
    (post : list Feedparser.Entry) (msg : string) (pre : list Feedparser.Entry) :
  forall (j : nat) (acc : list TechIndustryRecap.Article),
    TechIndustryRecap.make_article w cutoff s (j + length pre) bad = Raise msg ->
    TechIndustryRecap.entries_loop w cutoff s j (pre ++ bad :: post) acc =
      TechIndustryRecap.entries_loop w cutoff s j pre acc.
Proof.
  induction pre as [|entry rest IH]; intros j acc Hbad;
    cbn [TechIndustryRecap.entries_loop app length] in *.
  - rewrite Nat.add_0_r in Hbad. rewrite Hbad. reflexivity.
  - destruct (TechIndustryRecap.make_article w cutoff s j entry) as [[article|]|msg'];
      try reflexivity; apply IH; rewrite <- Hbad; f_equal; lia.
Qed.

Lemma tech_fetch_source_acc (w : TechIndustryRecap.World) (cutoff : datetime)
    (acc : list TechIndustryRecap.Article) (s : TechIndustryRecap.Source) :
  TechIndustryRecap.fetch_source w cutoff s acc =
    acc ++ TechIndustryRecap.fetch_source w cutoff s [].
Proof.
  unfold TechIndustryRecap.fetch_source.
  destruct (TechIndustryRecap.parse w (TechIndustryRecap.url s)) as [feed|msg].
  - apply tech_entries_loop_acc.
  - rewrite app_nil_r. reflexivity.
Qed.

(** *** industry_weekly_recap.py *)

Lemma weekly_entries_loop_acc (cutoff : datetime) (s : IndustryWeeklyRecap.Source)
    (entries : list Feedparser.Entry) :
  forall acc : list IndustryWeeklyRecap.Article,
    IndustryWeeklyRecap.entries_loop cutoff s entries acc =
      acc ++ IndustryWeeklyRecap.entries_loop cutoff s entries [].
Proof.
  induction entries as [|entry rest IH]; intros acc; cbn [IndustryWeeklyRecap.entries_loop].
  - rewrite app_nil_r. reflexivity.
  - destruct (IndustryWeeklyRecap.make_article cutoff s entry) as [[article|]|msg].
    + rewrite (IH (acc ++ [article])), (IH ([] ++ [article])), <- app_assoc. reflexivity.
    + apply IH.
    + rewrite app_nil_r. reflexivity.
Qed.

Lemma weekly_entries_loop_raise (cutoff : datetime) (s : IndustryWeeklyRecap.Source)
    (bad : Feedparser.Entry) (post : list Feedparser.Entry) (msg : string)
    (pre : list Feedparser.Entry) :
  forall acc : list IndustryWeeklyRecap.Article,
    IndustryWeeklyRecap.make_article cutoff s bad = Raise msg ->
    IndustryWeeklyRecap.entries_loop cutoff s (pre ++ bad :: post) acc =
      IndustryWeeklyRecap.entries_loop cutoff s pre acc.
Proof.
  induction pre as [|entry rest IH]; intros acc Hbad;
    cbn [IndustryWeeklyRecap.entries_loop app].
  - rewrite Hbad. reflexivity.
  - destruct (IndustryWeeklyRecap.make_article cutoff s entry) as [[article|]|msg'];
      try reflexivity; apply IH; exact Hbad.
Qed.

Lemma weekly_fetch_source_acc (w : IndustryWeeklyRecap.World) (cutoff : datetime)
    (acc : list IndustryWeeklyRecap.Article) (s : IndustryWeeklyRecap.Source) :
  IndustryWeeklyRecap.fetch_source w cutoff s acc =
    acc ++ IndustryWeeklyRecap.fetch_source w cutoff s [].
Proof.
  unfold IndustryWeeklyRecap.fetch_source.
  destruct (IndustryWeeklyRecap.parse w (IndustryWeeklyRecap.url s)) as [feed|msg].
  - apply weekly_entries_loop_acc.
  - rewrite app_nil_r. reflexivity.
Qed.

(** *** enhanced_tech_recap.py *)

Lemma enhanced_entries_loop_acc (cutoff : datetime) (s : EnhancedTechRecap.Source)
    (entries : list Feedparser.Entry) :
  forall acc : list EnhancedTechRecap.RawArticle,
    EnhancedTechRecap.entries_loop cutoff s entries acc =
      acc ++ EnhancedTechRecap.entries_loop cutoff s entries [].
Proof.
  induction entries as [|entry rest IH]; intros acc; cbn [EnhancedTechRecap.entries_loop].
  - rewrite app_nil_r. reflexivity.
  - destruct (EnhancedTechRecap.make_article cutoff s entry) as [[article|]|msg].
    + rewrite (IH (acc ++ [article])), (IH ([] ++ [article])), <- app_assoc. reflexivity.
    + apply IH.
    + rewrite app_nil_r. reflexivity.
Qed.

Lemma enhanced_entries_loop_raise (cutoff : datetime) (s : EnhancedTechRecap.Source)
    (bad : Feedparser.Entry) (post : list Feedparser.Entry) (msg : string)
    (pre : list Feedparser.Entry) :
  forall acc : list EnhancedTechRecap.RawArticle,
    EnhancedTechRecap.make_article cutoff s bad = Raise msg ->
    EnhancedTechRecap.entries_loop cutoff s (pre ++ bad :: post) acc =
      EnhancedTechRecap.entries_loop cutoff s pre acc.
Proof.
  induction pre as [|entry rest IH]; intros acc Hbad;
    cbn [EnhancedTechRecap.entries_loop app].
  - rewrite Hbad. reflexivity.
  - destruct (EnhancedTechRecap.make_article cutoff s entry) as [[article|]|msg'];
      try reflexivity; apply IH; exact Hbad.
Qed.

Lemma enhanced_fetch_source_acc (w : EnhancedTechRecap.World) (cutoff : datetime)
    (acc : list EnhancedTechRecap.RawArticle) (s : EnhancedTechRecap.Source) :
  EnhancedTechRecap.fetch_source w cutoff s acc =
    acc ++ EnhancedTechRecap.fetch_source w cutoff s [].
Proof.
  unfold EnhancedTechRecap.fetch_source.
  destruct (EnhancedTechRecap.parse w (EnhancedTechRecap.url s)) as [feed|msg].
  - apply enhanced_entries_loop_acc.
  - rewrite app_nil_r. reflexivity.
Qed.

(** C8, as stated, fails when the error is raised while the entries of a
    feed are gone through: the second entry of source A has no title, the
    error is caught and source B is still fetched, but the article of the
    first entry of A stays in the result. *)
Lemma failure_inside_a_feed_keeps_earlier_articles :
  let a := {| IndustryWeeklyRecap.name := "A";
              IndustryWeeklyRecap.url := "https://a.example/feed";
              IndustryWeeklyRecap.focus := "breaking_news" |} in
  let b := {| IndustryWeeklyRecap.name := "B";
              IndustryWeeklyRecap.url := "https://b.example/feed";
              IndustryWeeklyRecap.focus := "breaking_news" |} in
  let w := {| IndustryWeeklyRecap.parse :=
                feeds_with "https://a.example/feed"
                  [story "First story" "https://a.example/1" 0;
                   untitled "https://a.example/2" 0];
              IndustryWeeklyRecap.now := 0 |} in
  IndustryWeeklyRecap.make_article (0 - timedelta_days 7) a (untitled "https://a.example/2" 0)
    = Raise "object has no attribute 'title'"
  /\ map (fun x => (IndustryWeeklyRecap.a_source x, IndustryWeeklyRecap.a_title x))
       (IndustryWeeklyRecap.fetch_week_articles w [a; b] 7)
     = [("A", "First story"); ("B", "Other story")].
Proof. vm_compute. split; reflexivity. Qed.

(** C8, amended.  In each of the three fetchers an error raised for one
    source is caught and the pass goes on: the articles of the other
    sources are what they are without it.  When [feedparser.parse] raises
    for the source, the source contributes nothing: the result is the one
    of the pass over the other sources.  When the error is raised while an
    entry of its feed is turned into an article, the source contributes
    the articles of the entries before that one. *)
Theorem source_failure_isolated :
  (forall (w : TechIndustryRecap.World) srcs1 s srcs2,
     let cutoff := TechIndustryRecap.start_now w - timedelta_days 7 in
     let others :=
       fun srcs => concat (map (fun src => TechIndustryRecap.fetch_source w cutoff src []) srcs) in
     (forall msg,
        TechIndustryRecap.parse w (TechIndustryRecap.url s) = Raise msg ->
        TechIndustryRecap.fetch_past_week_articles w (srcs1 ++ s :: srcs2) =
          TechIndustryRecap.fetch_past_week_articles w (srcs1 ++ srcs2))
     /\ (forall feed pre bad post msg,
           TechIndustryRecap.parse w (TechIndustryRecap.url s) = Ok feed ->
           Feedparser.entries feed = pre ++ bad :: post ->
           TechIndustryRecap.make_article w cutoff s (length pre) bad = Raise msg ->
           TechIndustryRecap.fetch_past_week_articles w (srcs1 ++ s :: srcs2) =
             sort_desc key_gtb TechIndustryRecap.sort_key
               (others srcs1 ++ TechIndustryRecap.entries_loop w cutoff s 0 pre []
                ++ others srcs2))
     /\ TechIndustryRecap.fetch_past_week_articles w (srcs1 ++ srcs2) =
          sort_desc key_gtb TechIndustryRecap.sort_key (others srcs1 ++ others srcs2))
  /\ (forall (w : IndustryWeeklyRecap.World) days_back srcs1 s srcs2,
        let cutoff := IndustryWeeklyRecap.now w - timedelta_days days_back in
        let others :=
          fun srcs => concat (map (fun src => IndustryWeeklyRecap.fetch_source w cutoff src []) srcs) in
        (forall msg,
           IndustryWeeklyRecap.parse w (IndustryWeeklyRecap.url s) = Raise msg ->
           IndustryWeeklyRecap.fetch_week_articles w (srcs1 ++ s :: srcs2) days_back =
             IndustryWeeklyRecap.fetch_week_articles w (srcs1 ++ srcs2) days_back)
        /\ (forall feed pre bad post msg,
              IndustryWeeklyRecap.parse w (IndustryWeeklyRecap.url s) = Ok feed ->
              take 20 (Feedparser.entries feed) = pre ++ bad :: post ->
              IndustryWeeklyRecap.make_article cutoff s bad = Raise msg ->
              IndustryWeeklyRecap.fetch_week_articles w (srcs1 ++ s :: srcs2) days_back =
                others srcs1 ++ IndustryWeeklyRecap.entries_loop cutoff s pre []
                ++ others srcs2)
        /\ IndustryWeeklyRecap.fetch_week_articles w (srcs1 ++ srcs2) days_back =
             others srcs1 ++ others srcs2)
  /\ (forall (w : EnhancedTechRecap.World) srcs1 s srcs2,
        let cutoff := EnhancedTechRecap.now w - timedelta_days 7 in
        let others :=
          fun srcs => concat (map (fun src => EnhancedTechRecap.fetch_source w cutoff src []) srcs) in
        (forall msg,
           EnhancedTechRecap.parse w (EnhancedTechRecap.url s) = Raise msg ->
           EnhancedTechRecap.fetch_articles w (srcs1 ++ s :: srcs2) =
             EnhancedTechRecap.fetch_articles w (srcs1 ++ srcs2)
           /\ EnhancedTechRecap.fetch_and_analyze_articles w (srcs1 ++ s :: srcs2) =
                EnhancedTechRecap.fetch_and_analyze_articles w (srcs1 ++ srcs2))
        /\ (forall feed pre bad post msg,
              EnhancedTechRecap.parse w (EnhancedTechRecap.url s) = Ok feed ->
              take 15 (Feedparser.entries feed) = pre ++ bad :: post ->
              EnhancedTechRecap.make_article cutoff s bad = Raise msg ->
              EnhancedTechRecap.fetch_articles w (srcs1 ++ s :: srcs2) =
                others srcs1 ++ EnhancedTechRecap.entries_loop cutoff s pre []
                ++ others srcs2)
        /\ EnhancedTechRecap.fetch_articles w (srcs1 ++ srcs2) =
             others srcs1 ++ others srcs2).
Proof.
  split; [|split].
  - intros w srcs1 s srcs2 cutoff others.
    assert (Hall : forall srcs,
               TechIndustryRecap.fetch_past_week_articles w srcs =
                 sort_desc key_gtb TechIndustryRecap.sort_key (others srcs)).
    { intros srcs. unfold TechIndustryRecap.fetch_past_week_articles. fold cutoff.
      rewrite (foldl_contributions
                 (fun acc src => TechIndustryRecap.fetch_source w cutoff src acc)
                 (fun acc src => tech_fetch_source_acc w cutoff acc src)).
      reflexivity. }
    assert (Happ : forall l1 l2, others (l1 ++ l2) = others l1 ++ others l2).
    { intros l1 l2. unfold others. rewrite map_app, concat_app. reflexivity. }
    split; [|split].
    + intros msg Hparse. rewrite !Hall, !Happ. do 2 f_equal.
      unfold others at 1. cbn [map concat].
      unfold TechIndustryRecap.fetch_source at 1. rewrite Hparse. reflexivity.
    + intros feed pre bad post msg Hparse Hentries Hbad.
      rewrite Hall, Happ. do 2 f_equal.
      unfold others at 1. cbn [map concat]. f_equal.
      unfold TechIndustryRecap.fetch_source. rewrite Hparse, Hentries.
      apply (tech_entries_loop_raise w cutoff s bad post msg pre 0 []). exact Hbad.
    + rewrite Hall, Happ. reflexivity.
  - intros w days_back srcs1 s srcs2 cutoff others.
    assert (Hall : forall srcs,
               IndustryWeeklyRecap.fetch_week_articles w srcs days_back = others srcs).
    { intros srcs. unfold IndustryWeeklyRecap.fetch_week_articles. fold cutoff.
      rewrite (foldl_contributions
                 (fun acc src => IndustryWeeklyRecap.fetch_source w cutoff src acc)
                 (fun acc src => weekly_fetch_source_acc w cutoff acc src)).
      reflexivity. }
    assert (Happ : forall l1 l2, others (l1 ++ l2) = others l1 ++ others l2).
    { intros l1 l2. unfold others. rewrite map_app, concat_app. reflexivity. }
    split; [|split].
    + intros msg Hparse. rewrite !Hall, !Happ. f_equal.
      unfold others at 1. cbn [map concat].
      unfold IndustryWeeklyRecap.fetch_source at 1. rewrite Hparse. reflexivity.
    + intros feed pre bad post msg Hparse Hentries Hbad.
      rewrite Hall, Happ. f_equal.
      unfold others at 1. cbn [map concat]. f_equal.
      unfold IndustryWeeklyRecap.fetch_source. rewrite Hparse, Hentries.
      apply (weekly_entries_loop_raise cutoff s bad post msg pre []). exact Hbad.
    + rewrite Hall, Happ. reflexivity.
  - intros w srcs1 s srcs2 cutoff others.
    assert (Hall : forall srcs, EnhancedTechRecap.fetch_articles w srcs = others srcs).
    { intros srcs. unfold EnhancedTechRecap.fetch_articles. fold cutoff.
      rewrite (foldl_contributions
                 (fun acc src => EnhancedTechRecap.fetch_source w cutoff src acc)
                 (fun acc src => enhanced_fetch_source_acc w cutoff acc src)).
      reflexivity. }
    assert (Happ : forall l1 l2, others (l1 ++ l2) = others l1 ++ others l2).
    { intros l1 l2. unfold others. rewrite map_app, concat_app. reflexivity. }
    split; [|split].
    + intros msg Hparse.
      assert (EnhancedTechRecap.fetch_articles w (srcs1 ++ s :: srcs2) =
                EnhancedTechRecap.fetch_articles w (srcs1 ++ srcs2)) as Heq.
      { rewrite !Hall, !Happ. f_equal.
        unfold others at 1. cbn [map concat].
        unfold EnhancedTechRecap.fetch_source at 1. rewrite Hparse. reflexivity. }
      split; [exact Heq|].
      unfold EnhancedTechRecap.fetch_and_analyze_articles. rewrite Heq. reflexivity.
    + intros feed pre bad post msg Hparse Hentries Hbad.
      rewrite Hall, Happ. f_equal.
      unfold others at 1. cbn [map concat]. f_equal.
      unfold EnhancedTechRecap.fetch_source. rewrite Hparse, Hentries.
      apply (enhanced_entries_loop_raise cutoff s bad post msg pre []). exact Hbad.
    + rewrite Hall, Happ. reflexivity.
Qed.

Lemma source_failure_isolated_witness :
  let a := {| EnhancedTechRecap.name := "A";
              EnhancedTechRecap.url := "https://a.example/feed";
              EnhancedTechRecap.weight := 1 |} in
  let b := {| EnhancedTechRecap.name := "B";
              EnhancedTechRecap.url := "https://b.example/feed";
              EnhancedTechRecap.weight := 1 |} in
  let w := {| EnhancedTechRecap.parse := feeds_without "https://a.example/feed";
              EnhancedTechRecap.now := 0 |} in
  EnhancedTechRecap.fetch_articles w [b; a; b] = EnhancedTechRecap.fetch_articles w [b; b].
Proof.
  intros a b w.
  destruct source_failure_isolated as (_ & _ & Henhanced).
  destruct (Henhanced w [b] a [b]) as (Hraise & _).
  destruct (Hraise "connection reset by peer") as (Heq & _); [reflexivity|].
  exact Heq.
Defined.

End Fetching.

(* ===================================================================== *)
(** * Further properties of the batch summarizer *)
(* ===================================================================== *)

Section BatchCache.

Import BatchSummarizer Notions.

Lemma process_article_hit (e : Ext) (a : Article) (table : gmap string Item)
    (r : Results) (article_id text : string) (item : Item) (created : datetime) :
  id a = Some article_id ->
  article_id <> "" ->
  table !! article_id = Some item ->
  created_at item = Some created ->
  DynamoDB.summary item = Some text ->
  text <> "" ->
  read_fault e = None ->
  read_now e - created < timedelta_hours CACHE_DURATION_HOURS ->
  process_article e a (table, r) = (table, add_cached r).
Proof.
  intros Hid Hne Hlook Hcreated Hsummary Htext Hfault Hfresh.
  unfold process_article. rewrite Hid. cbn [truthy_opt get].
  apply truthy_true in Hne. rewrite Hne. cbn [negb].
  rewrite Hfault.
  rewrite (get_cached_summary_unfold _ _ _ _ _ Hlook Hcreated).
  apply Z.ltb_lt in Hfresh. rewrite Hfresh, Hsummary. cbn [truthy_opt].
  apply truthy_true in Htext. rewrite Htext. reflexivity.
Qed.

Lemma process_loop_warm (env : nat -> Ext) (table : gmap string Item)
    (articles : list Article) :
  forall (i : nat) (r : Results),
    (forall k a, articles !! k = Some a -> warm env table (i + k) a) ->
    process_loop env i articles (table, r) =
      (table,
       {| new_summaries := new_summaries r;
          cached_summaries := cached_summaries r + Z.of_nat (length articles);
          errors := errors r;
          processing_time := processing_time r |}).
Proof.
  induction articles as [|a rest IH]; intros i r Hwarm; cbn [process_loop length].
  - destruct r. cbn. do 2 f_equal. lia.
  - destruct (Hwarm 0%nat a eq_refl)
      as (article_id & item & created & text & Hid & Hne & Hlook & Hc & Hs & Ht & Hf & Hfresh).
    rewrite Nat.add_0_r in Hf, Hfresh.
    rewrite (process_article_hit (env i) a table r article_id text item created)
      by assumption.
    rewrite IH.
    + cbn. do 2 f_equal. lia.
    + intros k a' Hk. replace (S i + k)%nat with (i + S k)%nat by lia.
      apply Hwarm. exact Hk.
Qed.

(** X1.  A batch all of whose articles have a fresh, non-empty summary
    in the table is answered from the cache alone: every article is
    counted as cached, none as new or failed, and the table is left as it
    was, whatever the model and the table writes would have done. *)
Theorem warm_batch_is_all_cache_hits (env : nat -> Ext) (start_time end_time : datetime)
    (table : gmap string Item) (articles : list Article) :
  (forall k a, articles !! k = Some a -> warm env table k a) ->
  process_articles_batch env start_time end_time table articles =
    (table,
     {| new_summaries := 0;
        cached_summaries := Z.of_nat (length articles);
        errors := [];
        processing_time := total_seconds (end_time - start_time) |}).
Proof.
  intros Hwarm. unfold process_articles_batch.
  rewrite (process_loop_warm env table articles 0 initial_results) by exact Hwarm.
  reflexivity.
Qed.

Lemma warm_batch_is_all_cache_hits_witness :
  let item := {| DynamoDB.summary := Some "A summary of the article, long enough.";
                 created_at := Some 0; ttl := None; model_used := None;
                 metadata := None |} in
  let e := {| read_fault := None; read_now := timedelta_hours 1;
              invoke_model := fun _ => Raise "model unavailable";
              write_fault := Some "table unavailable"; write_now := 0 |} in
  let a := {| id := Some "a1"; title := None; content := None; source := None;
              category := None |} in
  process_articles_batch (fun _ => e) 0 0 {[ "a1" := item ]} [a; a] =
    ({[ "a1" := item ]},
     {| new_summaries := 0; cached_summaries := 2; errors := [];
        processing_time := total_seconds (0 - 0) |}).
Proof.
  intros item e a.
  apply (warm_batch_is_all_cache_hits (fun _ => e) 0 0 {[ "a1" := item ]} [a; a]).
  intros k a' Hk.
  assert (a' = a) as ->.
  { destruct k as [|[|k]]; cbn in Hk;
      first [ congruence | destruct k; discriminate ]. }
  exists "a1", item, 0, "A summary of the article, long enough.".
  repeat split; try reflexivity; discriminate.
Defined.



End BatchCache.

Section SummaryGeneration.

Import BatchSummarizer Notions.

Lemma rstrip_idempotent (s : string) : rstrip (rstrip s) = rstrip s.
Proof.
  induction s as [|c s IH]; [reflexivity|].
  cbn [rstrip]. destruct (rstrip s) as [|d r] eqn:E.
  - destruct (isspace c) eqn:Ec; [reflexivity|].
    cbn [rstrip]. rewrite Ec. reflexivity.
  - cbn [rstrip]. cbn [rstrip] in IH. rewrite IH. reflexivity.
Qed.

Lemma lstrip_head (s : string) :
  lstrip s = "" \/ exists c t, lstrip s = String c t /\ isspace c = false.
Proof.
  induction s as [|c s IH]; [left; reflexivity|].
  cbn [lstrip]. destruct (isspace c) eqn:Ec; [exact IH|].
  right. exists c, s. split; [reflexivity | exact Ec].
Qed.

Lemma rstrip_keeps_head (c : ascii) (t : string) :
  isspace c = false -> exists t', rstrip (String c t) = String c t'.
Proof.
  intros Ec. cbn [rstrip]. destruct (rstrip t) as [|d r].
  - rewrite Ec. exists "". reflexivity.
  - exists (String d r). reflexivity.
Qed.

Lemma strip_idempotent (s : string) : strip (strip s) = strip s.
Proof.
  unfold strip. destruct (lstrip_head s) as [->|(c & t & -> & Ec)]; [reflexivity|].
  destruct (rstrip_keeps_head c t Ec) as [t' Ht'].
  rewrite Ht' at 1. cbn [lstrip]. rewrite Ec, <- Ht'. apply rstrip_idempotent.
Qed.

(** X3.  A summary that [generate_summary] returns is the model's reply
    with the white space at its two ends removed, and has 20 characters
    or more: a shorter reply, and a reply of white space only, are
    refused. *)
Theorem generated_summary_is_validated (invoke : Payload -> result string)
    (article_text title category text : string) :
  generate_summary invoke article_text title category = Some text ->
  20 <= len text
  /\ strip text = text
  /\ exists payload reply, invoke payload = Ok reply /\ text = strip reply.
Proof.
  unfold generate_summary.
  match goal with |- context [invoke ?p] => set (payload := p) end.
  destruct (invoke payload) as [reply|msg] eqn:Hreply; cbn; [|discriminate].
  destruct (len (strip reply) <? 20) eqn:Hlen; cbn; [discriminate|].
  intros [= <-]. apply Z.ltb_ge in Hlen.
  split; [exact Hlen|]. split; [apply strip_idempotent|].
  exists payload, reply. split; [exact Hreply | reflexivity].
Qed.

Lemma generated_summary_is_validated_witness :
  20 <= len "A summary that is long enough."
  /\ strip "A summary that is long enough." = "A summary that is long enough.".
Proof.
  destruct (generated_summary_is_validated
              (fun _ => Ok "  A summary that is long enough.  ")
              "Body" "Title" "AI" "A summary that is long enough.")
    as (Hlen & Hstrip & _).
  - reflexivity.
  - split; [exact Hlen | exact Hstrip].
Defined.

(** X4.  Only the first 4000 characters of an article reach the model:
    two articles longer than 4000 characters that agree on their first
    4000 characters get the same summary. *)
Theorem summary_ignores_text_beyond_4000 (invoke : Payload -> result string)
    (text1 text2 title category : string) :
  (4000 < String.length text1)%nat ->
  (4000 < String.length text2)%nat ->
  str_take 4000 text1 = str_take 4000 text2 ->
  generate_summary invoke text1 title category =
    generate_summary invoke text2 title category.
Proof.
  intros H1 H2 Hsame. unfold generate_summary.
  apply Nat.ltb_lt in H1, H2. rewrite H1, H2, Hsame. reflexivity.
Qed.

Lemma summary_ignores_text_beyond_4000_witness :
  generate_summary (fun p => Ok (user_content p)) (padding 4000 +:+ "first tail") "" ""
  = generate_summary (fun p => Ok (user_content p)) (padding 4000 +:+ "second tail") "" "".
Proof.
  apply summary_ignores_text_beyond_4000.
  - apply Nat.ltb_lt. vm_compute. reflexivity.
  - apply Nat.ltb_lt. vm_compute. reflexivity.
  - vm_compute. reflexivity.
Defined.

Lemma cache_summary_frame (fault : option string) (now : datetime)
    (table : gmap string Item) (article_id text : string) (meta : dict) (k : string) :
  (k <> article_id ->
   cache_summary fault now table article_id text meta !! k = table !! k)
  /\ (is_Some (table !! k) ->
      is_Some (cache_summary fault now table article_id text meta !! k)).
Proof.
  unfold cache_summary, put_item. destruct fault as [msg|]; cbn.
  - split; [reflexivity | tauto].
  - split.
    + intros Hne. apply lookup_insert_ne. congruence.
    + intros Hsome. destruct (decide (article_id = k)) as [->|Hne].
      * rewrite lookup_insert_eq. eauto.
      * rewrite lookup_insert_ne by exact Hne. exact Hsome.
Qed.

Lemma process_article_frame (e : Ext) (a : Article) (table : gmap string Item)
    (r : Results) (k : string) :
  (id a <> Some k -> fst (process_article e a (table, r)) !! k = table !! k)
  /\ (is_Some (table !! k) -> is_Some (fst (process_article e a (table, r)) !! k)).
Proof.
  unfold process_article.
  destruct (id a) as [article_id|]; cbn [truthy_opt get negb];
    [|split; [reflexivity | tauto]].
  destruct (truthy article_id); cbn [negb]; [|split; [reflexivity | tauto]].
  destruct (truthy_opt _); [split; [reflexivity | tauto]|].
  destruct (negb _); [split; [reflexivity | tauto]|].
  destruct (generate_summary _ _ _ _) as [text|]; cbn [fst];
    [|split; [reflexivity | tauto]].
  split.
  - intros Hne. apply cache_summary_frame. congruence.
  - apply cache_summary_frame.
Qed.

Lemma process_loop_frame (env : nat -> Ext) (articles : list Article) (k : string) :
  forall (i : nat) (table : gmap string Item) (r : Results),
    ((forall a, a ∈ articles -> id a <> Some k) ->
     fst (process_loop env i articles (table, r)) !! k = table !! k)
    /\ (is_Some (table !! k) ->
        is_Some (fst (process_loop env i articles (table, r)) !! k)).
Proof.
  induction articles as [|a rest IH]; intros i table r; cbn [process_loop].
  - split; [reflexivity | tauto].
  - destruct (process_article_frame (env i) a table r k) as [Hother Hkept].
    destruct (process_article (env i) a (table, r)) as [table1 r1].
    cbn [fst] in Hother, Hkept.
    destruct (IH (S i) table1 r1) as [IHother IHkept].
    split.
    + intros Hids. rewrite IHother.
      * apply Hother, Hids, elem_of_cons. left. reflexivity.
      * intros a' Ha'. apply Hids, elem_of_cons. right. exact Ha'.
    + intros Hsome. apply IHkept, Hkept, Hsome.
Qed.

(** X5.  A batch writes only under the ids of its own articles and
    never deletes: an item whose key is the id of no article of the batch
    is the same after the batch, and every key present before is present
    after. *)
Theorem batch_writes_only_its_ids (env : nat -> Ext) (start_time end_time : datetime)
    (table : gmap string Item) (articles : list Article) :
  (forall k,
     (forall a, a ∈ articles -> id a <> Some k) ->
     fst (process_articles_batch env start_time end_time table articles) !! k = table !! k)
  /\ (forall k,
        is_Some (table !! k) ->
        is_Some (fst (process_articles_batch env start_time end_time table articles) !! k)).
Proof.
  unfold process_articles_batch.
  split; intros k H;
    destruct (process_loop_frame env articles k 0 table initial_results) as [Hother Hkept];
    destruct (process_loop env 0 articles (table, initial_results)) as [table' r'];
    cbn [fst] in *; auto.
Qed.

End SummaryGeneration.

Section BatchCap.

Import BatchSummarizer.



End BatchCap.

(* ===================================================================== *)
(** * Further properties of the API handler *)
(* ===================================================================== *)

Section ApiResponses.

Import ApiHandler Notions.

Lemma single_summary_shape (fault : option string) (table : gmap string Item)
    (event : Event) (hdrs : list (string * string)) :
  headers (handle_single_summary fault table event hdrs) = hdrs
  /\ (statusCode (handle_single_summary fault table event hdrs) = 200
      \/ statusCode (handle_single_summary fault table event hdrs) = 400
      \/ statusCode (handle_single_summary fault table event hdrs) = 404
      \/ statusCode (handle_single_summary fault table event hdrs) = 500).
Proof.
  unfold handle_single_summary, get_item.
  destruct (pathParameters event) as [params|]; cbn; [|tauto].
  destruct (lookup_key "article_id" params) as [article_id|msg]; cbn; [|tauto].
  destruct (truthy article_id); cbn; [|tauto].
  destruct fault as [msg|]; cbn; [tauto|].
  destruct (table !! article_id) as [item|]; cbn; [|tauto].
  destruct (DynamoDB.summary item); cbn; tauto.
Qed.

Lemma batch_summaries_shape (json_loads : string -> Json) (faults : nat -> option string)
    (table : gmap string Item) (event : Event) (hdrs : list (string * string)) :
  headers (handle_batch_summaries json_loads faults table event hdrs) = hdrs
  /\ (statusCode (handle_batch_summaries json_loads faults table event hdrs) = 200
      \/ statusCode (handle_batch_summaries json_loads faults table event hdrs) = 400
      \/ statusCode (handle_batch_summaries json_loads faults table event hdrs) = 500).
Proof.
  unfold handle_batch_summaries.
  destruct (negb (truthy_opt (ev_body event))); cbn; [tauto|].
  destruct (json_loads _) as [|msg|ids]; cbn; [tauto | tauto |].
  destruct (get ids (IdsList [])) as [[|a rest]|]; cbn; [tauto | | tauto].
  destruct (fetch_loop _ _ _ _ _). cbn. tauto.
Qed.

(** X7.  Every response of the API handler has status 200, 400, 404 or
    500.  It carries the CORS headers, except the status-500 response
    given to an event without [httpMethod] or [path].  An OPTIONS request
    is answered 200 with an empty body whatever its path and whatever the
    table holds. *)
Theorem api_responses_are_well_formed (json_loads : string -> Json)
    (faults : nat -> option string) (table : gmap string Item) (event : Event) :
  let response := lambda_handler json_loads faults table event in
  (statusCode response = 200 \/ statusCode response = 400
   \/ statusCode response = 404 \/ statusCode response = 500)
  /\ (headers response = cors_headers
      \/ (statusCode response = 500
          /\ headers response = [("Content-Type", "application/json")]
          /\ (httpMethod event = None \/ path event = None)))
  /\ (forall p, httpMethod event = Some "OPTIONS" -> path event = Some p ->
        response = {| statusCode := 200; headers := cors_headers; body := Empty |}).
Proof.
  unfold lambda_handler.
  destruct (httpMethod event) as [method|]; cbn [getitem mbind result_bind try_except];
    [|cbn; split; [tauto | split; [tauto | discriminate]]].
  destruct (path event) as [p|]; cbn [getitem mbind result_bind try_except];
    [|cbn; split; [tauto | split; [tauto | discriminate]]].
  destruct (String.eqb method "OPTIONS") eqn:Hoptions.
  - cbn. split; [tauto|]. split; [tauto|]. reflexivity.
  - assert (Hnot : forall q, Some method = Some "OPTIONS" -> Some p = Some q -> False).
    { intros q [= ->] _. rewrite String.eqb_refl in Hoptions. discriminate. }
    destruct (String.eqb method "GET" && String.prefix "/summaries/" p).
    + cbn [mret result_ret try_except].
      destruct (single_summary_shape (faults 0%nat) table event cors_headers) as [Hh Hs].
      split; [exact Hs|]. split; [left; exact Hh|].
      intros q H1 H2. destruct (Hnot q H1 H2).
    + destruct (String.eqb method "POST" && String.eqb p "/batch-summaries").
      * cbn [mret result_ret try_except].
        destruct (batch_summaries_shape json_loads faults table event cors_headers)
          as [Hh Hs].
        split; [tauto|]. split; [left; exact Hh|].
        intros q H1 H2. destruct (Hnot q H1 H2).
      * cbn. split; [tauto|]. split; [tauto|].
        intros q H1 H2. destruct (Hnot q H1 H2).
Qed.



(** X10.  [generate_summary_on_demand] has no length check: when the
    model replies, it returns the reply with the white space at its ends
    removed, however short, where the batch summarizer's
    [generate_summary] refuses the same reply when it has fewer than 20
    characters.  When the model call raises, it returns [None]. *)
Theorem on_demand_has_no_length_check
    (invoke : BatchSummarizer.Payload -> result string)
    (article_text title category reply : string) :
  (forall payload, invoke payload = Ok reply) ->
  generate_summary_on_demand invoke article_text title = Some (strip reply)
  /\ (len (strip reply) < 20 ->
      BatchSummarizer.generate_summary invoke article_text title category = None)
  /\ (forall msg,
        generate_summary_on_demand (fun _ => Raise msg) article_text title = None).
Proof.
  intros Hreply. split; [|split].
  - unfold generate_summary_on_demand. rewrite Hreply. reflexivity.
  - intros Hshort. unfold BatchSummarizer.generate_summary. rewrite Hreply. cbn.
    apply Z.ltb_lt in Hshort. rewrite Hshort. reflexivity.
  - intros msg. reflexivity.
Qed.

Lemma on_demand_has_no_length_check_witness :
  generate_summary_on_demand (fun _ => Ok " Too short. ") "Body" "Title" = Some "Too short."
  /\ BatchSummarizer.generate_summary (fun _ => Ok " Too short. ") "Body" "Title" "AI" = None.
Proof.
  destruct (on_demand_has_no_length_check (fun _ => Ok " Too short. ")
              "Body" "Title" "AI" " Too short. ") as (Hdemand & Hbatch & _).
  - reflexivity.
  - split; [exact Hdemand|]. apply Hbatch. vm_compute. reflexivity.
Defined.

End ApiResponses.

(* ===================================================================== *)
(** * Further properties of the recap generators *)
(* ===================================================================== *)

Section SortedOutput.

Context {A : Type} (key : A -> Q * datetime).

(** [a] may stand before [b] in a list sorted in descending key order. *)
Let before (a b : A) : Prop := key_gtb (key b) (key a) = false.

Lemma insert_desc_sorted (x : A) (l : list A) :
  StronglySorted before l -> StronglySorted before (insert_desc key_gtb key x l).
Proof.
  induction 1 as [|y l Hsorted IH Hall]; cbn [insert_desc].
  - repeat constructor.
  - destruct (key_gtb (key y) (key x)) eqn:Hyx.
    + constructor; [exact IH|].
      rewrite insert_desc_perm. constructor; [|exact Hall].
      apply key_gtb_asym. exact Hyx.
    + constructor; [constructor; assumption|].
      constructor; [exact Hyx|].
      eapply Forall_impl; [exact Hall|].
      intros z Hz. eapply key_le_trans; [exact Hz | exact Hyx].
Qed.

Lemma sort_desc_sorted (l : list A) : StronglySorted before (sort_desc key_gtb key l).
Proof.
  induction l as [|x l IH]; cbn; [constructor|].
  apply insert_desc_sorted. exact IH.
Qed.

Lemma sorted_positions (l : list A) :
  StronglySorted before l ->
  forall i j a b, (i < j)%nat -> l !! i = Some a -> l !! j = Some b -> before a b.
Proof.
  induction 1 as [|y l Hsorted IH Hall]; intros i j a b Hlt Hi Hj.
  - destruct i; discriminate.
  - destruct j as [|j]; [lia|]. cbn in Hj.
    destruct i as [|i].
    + cbn in Hi. injection Hi as <-.
      rewrite Forall_forall in Hall. apply Hall.
      apply list_elem_of_lookup. eauto.
    + cbn in Hi. apply (IH i j); [lia | assumption | assumption].
Qed.

Lemma sort_desc_positions (l : list A) (i j : nat) (a b : A) :
  (i < j)%nat ->
  sort_desc key_gtb key l !! i = Some a ->
  sort_desc key_gtb key l !! j = Some b ->
  (fst (key b) <= fst (key a))%Q
  /\ ((fst (key b) == fst (key a))%Q -> snd (key b) <= snd (key a)).
Proof.
  intros Hlt Hi Hj. apply key_gtb_false.
  exact (sorted_positions _ (sort_desc_sorted l) i j a b Hlt Hi Hj).
Qed.

End SortedOutput.

Section ListFacts.

Lemma elem_of_concat_map {S A : Type} (f : S -> list A) (l : list S) (a : A) :
  a ∈ concat (map f l) <-> exists s, s ∈ l /\ a ∈ f s.
Proof.
  induction l as [|s l IH]; cbn [map concat].
  - rewrite elem_of_nil. split; [tauto|]. intros (s & Hs & _).
    apply elem_of_nil in Hs. contradiction.
  - rewrite elem_of_app, IH. split.
    + intros [Ha|(s' & Hs' & Ha)].
      * exists s. split; [apply elem_of_cons; left; reflexivity | exact Ha].
      * exists s'. split; [apply elem_of_cons; right; exact Hs' | exact Ha].
    + intros (s' & Hs' & Ha). apply elem_of_cons in Hs' as [->|Hs'].
      * left. exact Ha.
      * right. exists s'. split; assumption.
Qed.

Lemma strongly_sorted_weaken {A : Type} (R R' : A -> A -> Prop) (l : list A) :
  (forall a b, R a b -> R' a b) -> StronglySorted R l -> StronglySorted R' l.
Proof.
  intros Himpl. induction 1 as [|a l Hsorted IH Hall]; constructor; [exact IH|].
  eapply Forall_impl; [exact Hall|]. intros b. apply Himpl.
Qed.

End ListFacts.

Section TechRecap.

Import TechIndustryRecap Notions.

Lemma str_take_length (n : nat) :
  forall s : string, (String.length (str_take n s) <= n)%nat.
Proof.
  unfold str_take. induction n as [|n IH]; intros [|c s]; cbn; try lia.
  specialize (IH s). lia.
Qed.

Lemma tech_make_article_fields (w : World) (cutoff : datetime) (s : Source) (j : nat)
    (entry : Feedparser.Entry) (a : Article) :
  make_article w cutoff s j entry = Ok (Some a) ->
  a_source a = name s
  /\ source_weight a = weight s
  /\ cutoff <= a_published a
  /\ category a = categorize_article (a_title a) (a_description a)
  /\ importance_score a =
       calculate_importance_score (score_now w s j) (weight s) (a_title a)
         (a_description a) (a_published a)
  /\ (String.length (a_content a) <= 1000)%nat.
Proof.
  unfold make_article.
  destruct (match Feedparser.published_parsed entry with
            | Some d => Some d
            | None => Feedparser.updated_parsed entry
            end) as [pub_date|]; [|discriminate].
  destruct (cutoff <=? pub_date) eqn:Hrecent; [|discriminate].
  destruct (Feedparser.title entry) as [title|]; cbn; [|discriminate].
  destruct (Feedparser.link entry) as [link|]; cbn; [|discriminate].
  intros [= <-]. cbn. apply Z.leb_le in Hrecent.
  repeat split; try reflexivity; try assumption.
  unfold extract_content. apply str_take_length.
Qed.

Lemma tech_entries_loop_in (w : World) (cutoff : datetime) (s : Source) (a : Article)
    (entries : list Feedparser.Entry) :
  forall (j : nat) (acc : list Article),
    a ∈ entries_loop w cutoff s j entries acc ->
    a ∈ acc \/ exists k entry, make_article w cutoff s k entry = Ok (Some a).
Proof.
  induction entries as [|entry rest IH]; intros j acc Hin; cbn [entries_loop] in Hin.
  - left. exact Hin.
  - destruct (make_article w cutoff s j entry) as [[article|]|msg] eqn:Hmake.
    + destruct (IH _ _ Hin) as [Hacc|Hlater]; [|right; exact Hlater].
      apply elem_of_app in Hacc as [Hacc|Hnew]; [left; exact Hacc|].
      apply elem_of_cons in Hnew as [->|Hnil]; [right; eauto|].
      apply elem_of_nil in Hnil. contradiction.
    + exact (IH _ _ Hin).
    + left. exact Hin.
Qed.

Lemma tech_fetch_in (w : World) (srcs : list Source) (a : Article) :
  a ∈ fetch_past_week_articles w srcs ->
  exists s k entry,
    s ∈ srcs
    /\ make_article w (start_now w - timedelta_days 7) s k entry = Ok (Some a).
Proof.
  unfold fetch_past_week_articles. rewrite sort_desc_perm.
  rewrite (foldl_contributions
             (fun acc src => fetch_source w (start_now w - timedelta_days 7) src acc)
             (fun acc src => tech_fetch_source_acc w _ acc src)).
  cbn [app]. intros Hin.
  apply elem_of_concat_map in Hin as (s & Hs & Hl).
  exists s. unfold fetch_source in Hl.
  destruct (parse w (url s)) as [feed|msg].
  - apply tech_entries_loop_in in Hl as [Hnil|(k & entry & Hmake)].
    + apply elem_of_nil in Hnil. contradiction.
    + exists k, entry. split; assumption.
  - apply elem_of_nil in Hl. contradiction.
Qed.


(** X12.  Every article [fetch_past_week_articles] returns comes from
    one of the sources it was given and carries that source's name and
    weight; it was published within the seven days before the start of
    the run; its category and its score are the ones computed from its
    own title, description and publication time; its content has at most
    1000 characters. *)
Theorem fetched_articles_are_recent_and_scored (w : World) (srcs : list Source) :
  Forall
    (fun a =>
       exists s,
         s ∈ srcs
         /\ a_source a = name s
         /\ source_weight a = weight s
         /\ start_now w - timedelta_days 7 <= a_published a
         /\ category a = categorize_article (a_title a) (a_description a)
         /\ (exists j,
               importance_score a =
                 calculate_importance_score (score_now w s j) (weight s) (a_title a)
                   (a_description a) (a_published a))
         /\ (String.length (a_content a) <= 1000)%nat)
    (fetch_past_week_articles w srcs).
Proof.
  apply Forall_forall. intros a Ha.
  apply tech_fetch_in in Ha as (s & k & entry & Hs & Hmake).
  apply tech_make_article_fields in Hmake as (H1 & H2 & H3 & H4 & H5 & H6).
  exists s. repeat split; try assumption. exists k. exact H5.
Qed.



Lemma increment_count (key c : string) (d : list (string * Z)) :
  count_of c (increment key d) = count_of c d + (if String.eqb key c then 1 else 0).
Proof.
  induction d as [|[k v] d IH]; cbn.
  - destruct (String.eqb key c); lia.
  - destruct (String.eqb k key) eqn:Ekey; cbn.
    + apply String.eqb_eq in Ekey as ->.
      destruct (String.eqb key c); lia.
    + destruct (String.eqb k c) eqn:Ec; [|exact IH].
      apply String.eqb_eq in Ec as ->.
      rewrite String.eqb_sym, Ekey. lia.
Qed.

Lemma increment_total (key : string) (d : list (string * Z)) :
  total_count (increment key d) = total_count d + 1.
Proof.
  induction d as [|[k v] d IH]; cbn; [lia|].
  destruct (String.eqb k key); cbn; lia.
Qed.

Lemma increment_keys (key : string) (d : list (string * Z)) :
  NoDup (map fst d) ->
  NoDup (map fst (increment key d))
  /\ forall k, k ∈ map fst (increment key d) <-> k = key \/ k ∈ map fst d.
Proof.
  induction d as [|[k v] d IH]; cbn [increment map fst].
  - intros _. split; [repeat constructor; apply not_elem_of_nil|].
    intros k. rewrite elem_of_cons, elem_of_nil. tauto.
  - intros Hnodup. apply NoDup_cons in Hnodup as [Hnotin Hnodup].
    destruct (String.eqb k key) eqn:Ekey; cbn [map fst].
    + apply String.eqb_eq in Ekey as ->.
      split; [apply NoDup_cons; split; assumption|].
      intros k. rewrite elem_of_cons. tauto.
    + destruct (IH Hnodup) as [IHnodup IHkeys].
      assert (k <> key) as Hne by (intros ->; rewrite String.eqb_refl in Ekey; discriminate).
      split.
      * apply NoDup_cons. split; [|exact IHnodup].
        rewrite IHkeys. intros [->|Hin]; [congruence | contradiction].
      * intros k'. rewrite !elem_of_cons, IHkeys. tauto.
Qed.

Lemma increment_positive (key : string) (d : list (string * Z)) :
  Forall (fun kv => 1 <= snd kv) d -> Forall (fun kv => 1 <= snd kv) (increment key d).
Proof.
  induction d as [|[k v] d IH]; cbn [increment]; intros Hall.
  - repeat constructor. cbn. lia.
  - apply Forall_cons in Hall as [Hv Hall]. cbn in Hv.
    destruct (String.eqb k key); constructor; cbn; try lia; auto.
Qed.

(** X14.  The category distribution lists every category once; the
    count listed for a category is the number of articles with that
    category and is at least 1 (a category no article has is not listed);
    the counts add up to the number of articles. *)
Theorem category_distribution_counts (articles : list Article) :
  let distribution := get_category_distribution articles in
  NoDup (map fst distribution)
  /\ Forall (fun kv => 1 <= snd kv) distribution
  /\ (forall c,
        count_of c distribution =
          Z.of_nat (length (List.filter (fun a => String.eqb (category a) c) articles)))
  /\ total_count distribution = Z.of_nat (length articles).
Proof.
  unfold get_category_distribution.
  induction articles as [|a articles IH] using rev_ind.
  - cbn. repeat split; try constructor. 
  - rewrite foldl_app. cbn [foldl].
    destruct IH as (Hnodup & Hpos & Hcount & Htotal).
    split; [apply increment_keys; exact Hnodup|].
    split; [apply increment_positive; exact Hpos|].
    split.
    + intros c. rewrite increment_count, Hcount, List.filter_app, length_app.
      cbn [List.filter]. destruct (String.eqb (category a) c); cbn [length]; lia.
    + rewrite increment_total, Htotal, length_app. cbn. lia.
Qed.


End TechRecap.

Section WeeklyRecap.

Import IndustryWeeklyRecap Notions.

Lemma weekly_make_article_fields (cutoff : datetime) (s : Source)
    (entry : Feedparser.Entry) (a : Article) :
  make_article cutoff s entry = Ok (Some a) ->
  a_source a = name s
  /\ focus_area a = focus s
  /\ a_summary a = ""
  /\ (forall d, a_published a = Some d -> cutoff <= d)
  /\ (String.length (a_content a) <= 1000)%nat.
Proof.
  unfold make_article.
  set (pub_date := match Feedparser.published_parsed entry with
                   | Some d => Some d
                   | None => Feedparser.updated_parsed entry
                   end).
  destruct (match pub_date with Some d => d <? cutoff | None => false end) eqn:Hold;
    [discriminate|].
  match goal with |- context [mbind _ ?c] => destruct c as [text|msg] end;
    cbn; [|discriminate].
  destruct (Feedparser.title entry) as [title|]; cbn; [|discriminate].
  destruct (Feedparser.link entry) as [link|]; cbn; [|discriminate].
  intros [= <-]. cbn. repeat split.
  - intros d Hd. rewrite Hd in Hold. apply Z.ltb_ge in Hold. exact Hold.
  - apply str_take_length.
Qed.

Lemma weekly_entries_loop_length (cutoff : datetime) (s : Source)
    (entries : list Feedparser.Entry) :
  forall acc : list Article,
    (length (entries_loop cutoff s entries acc) <= length acc + length entries)%nat.
Proof.
  induction entries as [|entry rest IH]; intros acc; cbn [entries_loop length]; [lia|].
  destruct (make_article cutoff s entry) as [[article|]|msg].
  - specialize (IH (acc ++ [article])). rewrite length_app in IH. cbn in IH. lia.
  - specialize (IH acc). lia.
  - lia.
Qed.

Lemma weekly_entries_loop_in (cutoff : datetime) (s : Source) (a : Article)
    (entries : list Feedparser.Entry) :
  forall acc : list Article,
    a ∈ entries_loop cutoff s entries acc ->
    a ∈ acc \/ exists entry, make_article cutoff s entry = Ok (Some a).
Proof.
  induction entries as [|entry rest IH]; intros acc Hin; cbn [entries_loop] in Hin.
  - left. exact Hin.
  - destruct (make_article cutoff s entry) as [[article|]|msg] eqn:Hmake.
    + destruct (IH _ Hin) as [Hacc|Hlater]; [|right; exact Hlater].
      apply elem_of_app in Hacc as [Hacc|Hnew]; [left; exact Hacc|].
      apply elem_of_cons in Hnew as [->|Hnil]; [right; eauto|].
      apply elem_of_nil in Hnil. contradiction.
    + exact (IH _ Hin).
    + left. exact Hin.
Qed.

Lemma concat_map_length {S A : Type} (f : S -> list A) (n : nat) (l : list S) :
  (forall s, length (f s) <= n)%nat ->
  (length (concat (map f l)) <= n * length l)%nat.
Proof.
  intros Hbound. induction l as [|s l IH]; cbn [map concat length]; [lia|].
  rewrite length_app. specialize (Hbound s). lia.
Qed.

(** X15.  [fetch_week_articles] returns at most 20 articles per source.
    Every article it returns carries the name and the focus of one of the
    sources, an empty summary and a content of at most 1000 characters,
    and, when it has a publication date, was published within the
    look-back window. *)
Theorem weekly_fetch_is_bounded (w : World) (srcs : list Source) (days_back : Z) :
  (length (fetch_week_articles w srcs days_back) <= 20 * length srcs)%nat
  /\ Forall
       (fun a =>
          (exists s, s ∈ srcs /\ a_source a = name s /\ focus_area a = focus s)
          /\ a_summary a = ""
          /\ (forall d, a_published a = Some d -> now w - timedelta_days days_back <= d)
          /\ (String.length (a_content a) <= 1000)%nat)
       (fetch_week_articles w srcs days_back).
Proof.
  unfold fetch_week_articles.
  set (cutoff := now w - timedelta_days days_back).
  rewrite (foldl_contributions
             (fun acc src => fetch_source w cutoff src acc)
             (fun acc src => weekly_fetch_source_acc w cutoff acc src)).
  cbn [app]. split.
  - apply concat_map_length. intros s. unfold fetch_source.
    destruct (parse w (url s)) as [feed|msg].
    + pose proof (weekly_entries_loop_length cutoff s
                    (take 20 (Feedparser.entries feed)) []) as Hlen.
      rewrite length_take in Hlen. cbn [length] in Hlen. lia.
    + cbn [length]. lia.
  - apply Forall_forall. intros a Ha.
    apply elem_of_concat_map in Ha as (s & Hs & Ha).
    unfold fetch_source in Ha.
    destruct (parse w (url s)) as [feed|msg];
      [|apply elem_of_nil in Ha; contradiction].
    apply weekly_entries_loop_in in Ha as [Hnil|(entry & Hmake)];
      [apply elem_of_nil in Hnil; contradiction|].
    apply weekly_make_article_fields in Hmake as (H1 & H2 & H3 & H4 & H5).
    split; [exists s; repeat split; assumption|].
    repeat split; assumption.
Qed.

Lemma bucket_append_map (c : string) (a : Article) (f : string -> list Article)
    (keys : list string) :
  NoDup keys ->
  bucket_append c a (map (fun k => (k, f k)) keys) =
    map (fun k => (k, if String.eqb k c then f k ++ [a] else f k)) keys.
Proof.
  induction keys as [|k keys IH]; intros Hnodup; cbn [map bucket_append]; [reflexivity|].
  apply NoDup_cons in Hnodup as [Hnotin Hnodup].
  destruct (String.eqb k c) eqn:E.
  - f_equal. apply String.eqb_eq in E as ->.
    apply map_ext_in. intros k' Hin.
    destruct (String.eqb k' c) eqn:E'; [|reflexivity].
    apply String.eqb_eq in E' as ->. apply list_elem_of_In in Hin. contradiction.
  - f_equal. apply IH. exact Hnodup.
Qed.

Lemma category_of_not_products (a : Article) :
  String.eqb (category_of a) "products" = false.
Proof.
  unfold category_of.
  destruct (first_match keywords _) as [c|] eqn:E; [|reflexivity].
  apply first_match_key in E. cbn in E.
  repeat (apply elem_of_cons in E as [->|E]); try reflexivity.
  apply elem_of_nil in E. contradiction.
Qed.

(** X16.  [categorize_articles] returns the eight categories in their
    fixed order, each with the articles filed under it in the order they
    were given; the 'products' category, which has no keyword list, is
    always empty. *)
Theorem categorize_buckets_are_filters (articles : list Article) :
  categorize_articles articles =
    map (fun k => (k, List.filter (fun a => String.eqb k (category_of a)) articles))
      ["ai_llm"; "funding_ipo"; "big_tech"; "startups"; "security"; "regulation";
       "products"; "other"]
  /\ List.filter (fun a => String.eqb "products" (category_of a)) articles = [].
Proof.
  split.
  - unfold categorize_articles.
    induction articles as [|a articles IH] using rev_ind; [reflexivity|].
    rewrite foldl_app. cbn [foldl]. rewrite IH.
    rewrite (bucket_append_map (category_of a) a
               (fun k => List.filter (fun a => String.eqb k (category_of a)) articles)).
    + apply map_ext. intros k. f_equal.
      rewrite List.filter_app. cbn [List.filter].
      destruct (String.eqb k (category_of a)); [reflexivity | symmetry; apply app_nil_r].
    + repeat (apply NoDup_cons; split;
              [rewrite ?elem_of_cons, elem_of_nil; intuition discriminate|]).
      apply NoDup_nil. exact I.
  - induction articles as [|a articles IH]; cbn [List.filter]; [reflexivity|].
    rewrite String.eqb_sym, category_of_not_products. exact IH.
Qed.

End WeeklyRecap.

Section EnhancedRecap.

Import EnhancedTechRecap Notions.

Lemma classify_facts (text : string) :
  let categories := fst (classify text) in
  let importance := snd (classify text) in
  existsb (String.eqb "AI") categories = any_in (ai_terms ++ ai_companies) text
  /\ existsb (String.eqb "Security") categories = any_in security_terms text
  /\ existsb (String.eqb "Funding") categories = any_in funding_terms text
  /\ existsb (String.eqb "Big Tech") categories = any_in big_tech_terms text
  /\ existsb (String.eqb "Regulatory") categories = any_in regulatory_terms text
  /\ (importance ==
        (if any_in (ai_terms ++ ai_companies) text then 2 else 0)
        + (if any_in security_terms text then 3 # 2 else 0)
        + (if any_in funding_terms text then 1 else 0)
        + (if any_in big_tech_terms text then 3 # 2 else 0)
        + (if any_in breakthrough_terms text then 1 else 0)
        + (if any_in regulatory_terms text then 1 else 0))%Q
  /\ (0 <= importance)%Q
  /\ (importance <= 8)%Q
  /\ (categories = [] -> (importance <= 1)%Q).
Proof.
  unfold classify.
  destruct (any_in (ai_terms ++ ai_companies) text),
    (any_in security_terms text), (any_in funding_terms text),
    (any_in big_tech_terms text), (any_in breakthrough_terms text),
    (any_in regulatory_terms text);
    cbn; repeat split; try reflexivity; try discriminate;
    try (unfold Qle; cbn; lia); intros _; unfold Qle; cbn; lia.
Qed.

Lemma analyzed_raw (r : RawArticle) : raw (analyzed r) = r.
Proof. unfold analyzed. destruct (classify _). reflexivity. Qed.

Lemma analyzed_classify (r : RawArticle) :
  categories (analyzed r) = fst (classify (trend_text r))
  /\ importance (analyzed r) = snd (classify (trend_text r)).
Proof. unfold analyzed, trend_text. destruct (classify _). split; reflexivity. Qed.

Lemma analyze_step_trends (t : Trends) (major done : list Article) (r : RawArticle) :
  fst (fst (analyze_step (t, major, done) r)) =
    {| ai_stories :=
         append_if (any_in (ai_terms ++ ai_companies) (trend_text r)) (analyzed r)
           (ai_stories t);
       security_stories :=
         append_if (any_in security_terms (trend_text r)) (analyzed r)
           (security_stories t);
       startup_funding :=
         append_if (any_in funding_terms (trend_text r)) (analyzed r) (startup_funding t);
       big_tech_moves :=
         append_if (any_in big_tech_terms (trend_text r)) (analyzed r) (big_tech_moves t);
       breakthrough_tech :=
         append_if (any_in breakthrough_terms (trend_text r)) (analyzed r)
           (breakthrough_tech t);
       regulatory_news :=
         append_if (any_in regulatory_terms (trend_text r)) (analyzed r)
           (regulatory_news t) |}.
Proof. reflexivity. Qed.

Lemma analyze_fold_trends (raws : list RawArticle) :
  forall (t : Trends) (major done : list Article),
    let t' := fst (fst (foldl analyze_step (t, major, done) raws)) in
    ai_stories t' =
      ai_stories t ++ List.filter (fun a => any_in (ai_terms ++ ai_companies) (trend_text (raw a)))
                   (map analyzed raws)
    /\ security_stories t' =
      security_stories t ++ List.filter (fun a => any_in security_terms (trend_text (raw a)))
                   (map analyzed raws)
    /\ startup_funding t' =
      startup_funding t ++ List.filter (fun a => any_in funding_terms (trend_text (raw a)))
                   (map analyzed raws)
    /\ big_tech_moves t' =
      big_tech_moves t ++ List.filter (fun a => any_in big_tech_terms (trend_text (raw a)))
                   (map analyzed raws)
    /\ breakthrough_tech t' =
      breakthrough_tech t ++ List.filter (fun a => any_in breakthrough_terms (trend_text (raw a)))
                   (map analyzed raws)
    /\ regulatory_news t' =
      regulatory_news t ++ List.filter (fun a => any_in regulatory_terms (trend_text (raw a)))
                   (map analyzed raws).
Proof.
  induction raws as [|r rest IH]; intros t major done; cbn [foldl map List.filter].
  - cbv zeta. cbn [fst]. rewrite !app_nil_r. repeat split; reflexivity.
  - destruct (analyze_step (t, major, done) r) as [[t1 m1] d1] eqn:Hstep.
    destruct (IH t1 m1 d1) as (H1 & H2 & H3 & H4 & H5 & H6).
    cbv zeta in *. rewrite H1, H2, H3, H4, H5, H6.
    pose proof (analyze_step_trends t major done r) as Ht1.
    rewrite Hstep in Ht1. cbn [fst] in Ht1. subst t1.
    cbn [ai_stories security_stories startup_funding big_tech_moves
         breakthrough_tech regulatory_news].
    rewrite analyzed_raw. unfold append_if.
    repeat split;
      match goal with |- context [if ?b then _ else _] => destruct b end;
      rewrite <- ?app_assoc; reflexivity.
Qed.

Lemma filter_analyzed (tag : string) (terms : list string) (raws : list RawArticle) :
  (forall r, has_category tag (analyzed r) = any_in terms (trend_text r)) ->
  List.filter (fun a => any_in terms (trend_text (raw a))) (map analyzed raws) =
    List.filter (has_category tag) (map analyzed raws).
Proof.
  intros Htag. apply filter_ext_in. intros a Ha.
  apply in_map_iff in Ha as (r & <- & _). rewrite analyzed_raw, Htag. reflexivity.
Qed.

Lemma has_category_analyzed (r : RawArticle) :
  has_category "AI" (analyzed r) = any_in (ai_terms ++ ai_companies) (trend_text r)
  /\ has_category "Security" (analyzed r) = any_in security_terms (trend_text r)
  /\ has_category "Funding" (analyzed r) = any_in funding_terms (trend_text r)
  /\ has_category "Big Tech" (analyzed r) = any_in big_tech_terms (trend_text r)
  /\ has_category "Regulatory" (analyzed r) = any_in regulatory_terms (trend_text r).
Proof.
  unfold has_category. destruct (analyzed_classify r) as [-> _].
  destruct (classify_facts (trend_text r)) as (H1 & H2 & H3 & H4 & H5 & _).
  repeat split; assumption.
Qed.

(** X17.  The trend lists and the statistics of an analysis agree with
    the categories of its articles: each tagged trend list holds, in
    order, the articles that carry the tag, and each statistic is the
    number of such articles; [total_articles] is the number of articles
    analyzed. *)
Theorem trends_match_categories (raws : list RawArticle) :
  let analysis := analyze_article_trends raws in
  let tagged := fun tag => List.filter (has_category tag) (articles analysis) in
  ai_stories (trends analysis) = tagged "AI"
  /\ security_stories (trends analysis) = tagged "Security"
  /\ startup_funding (trends analysis) = tagged "Funding"
  /\ big_tech_moves (trends analysis) = tagged "Big Tech"
  /\ regulatory_news (trends analysis) = tagged "Regulatory"
  /\ total_articles (stats analysis) = length raws
  /\ ai_focus (stats analysis) = length (tagged "AI")
  /\ security_focus (stats analysis) = length (tagged "Security")
  /\ funding_stories (stats analysis) = length (tagged "Funding")
  /\ big_tech_stories (stats analysis) = length (tagged "Big Tech").
Proof.
  intros analysis tagged.
  assert (Harticles : articles analysis = map analyzed raws) by apply analysis_articles.
  subst tagged. cbv beta. rewrite Harticles.
  subst analysis. unfold analyze_article_trends.
  pose proof (analyze_fold_trends raws empty_trends [] []) as Htrends.
  pose proof (analyze_fold raws empty_trends [] []) as [Hdone _].
  destruct (foldl analyze_step (empty_trends, [], []) raws) as [[t major] done].
  cbv zeta in Htrends. cbn [fst snd app empty_trends ai_stories security_stories
    startup_funding big_tech_moves breakthrough_tech regulatory_news] in Htrends, Hdone.
  destruct Htrends as (H1 & H2 & H3 & H4 & _ & H6).
  cbn [trends stats articles total_articles ai_focus security_focus funding_stories
       big_tech_stories].
  rewrite H1, H2, H3, H4, H6, Hdone, length_map.
  rewrite (filter_analyzed "AI"), (filter_analyzed "Security"),
    (filter_analyzed "Funding"), (filter_analyzed "Big Tech"),
    (filter_analyzed "Regulatory");
    try (intros r; apply has_category_analyzed).
  repeat split; reflexivity.
Qed.

(** X18.  The importance of an analyzed article is the sum of the
    points of the classes that matched: 2 for AI, 1.5 for Security, 1 for
    Funding, 1.5 for Big Tech, 1 for Regulatory, and 1 more when a
    breakthrough term occurs in its text.  It lies between 0 and 8, and an
    article without any category has importance 1 at most. *)
Theorem importance_is_sum_of_matched_classes (raws : list RawArticle) :
  Forall
    (fun a =>
       (importance a ==
          (if has_category "AI" a then 2 else 0)
          + (if has_category "Security" a then 3 # 2 else 0)
          + (if has_category "Funding" a then 1 else 0)
          + (if has_category "Big Tech" a then 3 # 2 else 0)
          + (if any_in breakthrough_terms (trend_text (raw a)) then 1 else 0)
          + (if has_category "Regulatory" a then 1 else 0))%Q
       /\ (0 <= importance a)%Q
       /\ (importance a <= 8)%Q
       /\ (categories a = [] -> (importance a <= 1)%Q))
    (articles (analyze_article_trends raws)).
Proof.
  rewrite analysis_articles. apply Forall_forall. intros a Ha.
  apply list_elem_of_In, in_map_iff in Ha as (r & <- & _).
  destruct (has_category_analyzed r) as (-> & -> & -> & -> & ->).
  rewrite analyzed_raw.
  destruct (analyzed_classify r) as [-> ->].
  destruct (classify_facts (trend_text r)) as (_ & _ & _ & _ & _ & Hsum & Hlo & Hhi & Hnone).
  repeat split; assumption.
Qed.

Lemma sorted_app_before {A : Type} (R : A -> A -> Prop) (l1 l2 : list A) :
  StronglySorted R (l1 ++ l2) -> forall x y, x ∈ l1 -> y ∈ l2 -> R x y.
Proof.
  induction l1 as [|z l1 IH]; cbn [app]; intros Hsorted x y Hx Hy.
  - apply elem_of_nil in Hx. contradiction.
  - apply StronglySorted_inv in Hsorted as [Hsorted Hall].
    apply elem_of_cons in Hx as [->|Hx].
    + rewrite Forall_forall in Hall. apply Hall, elem_of_app. right. exact Hy.
    + exact (IH Hsorted x y Hx Hy).
Qed.

Lemma sorted_take {A : Type} (R : A -> A -> Prop) (n : nat) (l : list A) :
  StronglySorted R l -> StronglySorted R (take n l).
Proof.
  intros Hsorted. revert n.
  induction Hsorted as [|a l Hsorted IH Hall]; intros [|n]; cbn [take]; try constructor.
  - apply IH.
  - rewrite Forall_forall in *. intros x Hx. apply Hall.
    apply elem_of_take in Hx as (i & Hi & _). apply list_elem_of_lookup. eauto.
Qed.

(** X19.  The major stories of an analysis are at most ten articles of
    the analysis, each of importance 2 or more and with at least one
    category, listed by descending importance and, at equal importance,
    by descending publication time.  They are the top of that ranking: an
    article of importance 2 or more that is left out ranks no higher than
    any major story. *)
Theorem major_stories_are_the_top_ten (raws : list RawArticle) :
  let analysis := analyze_article_trends raws in
  let ranks_below := fun a m : Article =>
    (importance a <= importance m)%Q
    /\ ((importance a == importance m)%Q -> a_published a <= a_published m) in
  (length (major_stories analysis) <= 10)%nat
  /\ Forall (fun m => m ∈ articles analysis
                      /\ (2 <= importance m)%Q
                      /\ categories m <> [])
       (major_stories analysis)
  /\ StronglySorted (fun m a => ranks_below a m) (major_stories analysis)
  /\ (forall a,
        a ∈ articles analysis ->
        (2 <= importance a)%Q ->
        a ∈ major_stories analysis
        \/ Forall (fun m => ranks_below a m) (major_stories analysis)).
Proof.
  intros analysis ranks_below.
  set (all := map analyzed raws).
  set (candidates := List.filter (fun a => Qgeb (importance a) 2) all).
  set (sorted := sort_desc key_gtb sort_key candidates).
  assert (Harticles : articles analysis = all) by apply analysis_articles.
  assert (Hmajor : major_stories analysis = take 10 sorted) by apply analysis_major_stories.
  assert (Hsorted : StronglySorted (fun m a => ranks_below a m) sorted).
  { eapply strongly_sorted_weaken; [|apply (sort_desc_sorted sort_key)].
    intros m a Hle. apply key_gtb_false in Hle. exact Hle. }
  assert (Hcandidate : forall a, a ∈ sorted <-> a ∈ all /\ (2 <= importance a)%Q).
  { intros a. unfold sorted. rewrite sort_desc_perm. unfold candidates.
    rewrite elem_of_filter_bool. unfold Qgeb. rewrite Qle_bool_iff. reflexivity. }
  rewrite Hmajor, Harticles.
  split; [rewrite length_take; lia|].
  split; [|split].
  - apply Forall_forall. intros m Hm.
    assert (m ∈ sorted) as Hin.
    { apply elem_of_take in Hm as (i & Hi & _). apply list_elem_of_lookup. eauto. }
    apply Hcandidate in Hin as [Hall Hge]. split; [exact Hall|]. split; [exact Hge|].
    intros Hnone.
    apply list_elem_of_In, in_map_iff in Hall as (r & <- & _).
    destruct (analyzed_classify r) as [Hc Hi].
    destruct (classify_facts (trend_text r)) as (_ & _ & _ & _ & _ & _ & _ & _ & Hlow).
    cbv zeta in Hlow. rewrite <- Hc, <- Hi in Hlow. specialize (Hlow Hnone).
    assert (2 <= 1)%Q as Habsurd by (eapply Qle_trans; eassumption).
    unfold Qle in Habsurd. cbn in Habsurd. lia.
  - apply sorted_take. exact Hsorted.
  - intros a Ha Hge.
    assert (a ∈ sorted) as Hin by (apply Hcandidate; split; assumption).
    rewrite <- (take_drop 10 sorted) in Hin, Hsorted.
    apply elem_of_app in Hin as [Htop|Hrest]; [left; exact Htop|].
    right. apply Forall_forall. intros m Hm.
    exact (sorted_app_before _ _ _ Hsorted m a Hm Hrest).
Qed.

Lemma enhanced_make_article_fields (cutoff : datetime) (s : Source)
    (entry : Feedparser.Entry) (r : RawArticle) :
  make_article cutoff s entry = Ok (Some r) ->
  r_source r = name s
  /\ cutoff <= r_published r
  /\ Feedparser.published_parsed entry = Some (r_published r)
  /\ raw_entry r = entry
  /\ (String.length (r_description r) <= 500)%nat.
Proof.
  unfold make_article.
  destruct (Feedparser.published_parsed entry) as [pub_date|]; [|discriminate].
  destruct (cutoff <=? pub_date) eqn:Hrecent; [|discriminate].
  destruct (Feedparser.title entry) as [title|]; cbn; [|discriminate].
  destruct (Feedparser.link entry) as [link|]; cbn; [|discriminate].
  intros [= <-]. cbn. apply Z.leb_le in Hrecent.
  repeat split; try assumption. apply str_take_length.
Qed.

Lemma enhanced_entries_loop_length (cutoff : datetime) (s : Source)
    (entries : list Feedparser.Entry) :
  forall acc : list RawArticle,
    (length (entries_loop cutoff s entries acc) <= length acc + length entries)%nat.
Proof.
  induction entries as [|entry rest IH]; intros acc; cbn [entries_loop length]; [lia|].
  destruct (make_article cutoff s entry) as [[article|]|msg].
  - specialize (IH (acc ++ [article])). rewrite length_app in IH. cbn in IH. lia.
  - specialize (IH acc). lia.
  - lia.
Qed.

Lemma enhanced_entries_loop_in (cutoff : datetime) (s : Source) (r : RawArticle)
    (entries : list Feedparser.Entry) :
  forall acc : list RawArticle,
    r ∈ entries_loop cutoff s entries acc ->
    r ∈ acc \/ exists entry, entry ∈ entries /\ make_article cutoff s entry = Ok (Some r).
Proof.
  induction entries as [|entry rest IH]; intros acc Hin; cbn [entries_loop] in Hin.
  - left. exact Hin.
  - destruct (make_article cutoff s entry) as [[article|]|msg] eqn:Hmake.
    + destruct (IH _ Hin) as [Hacc|(e & He & Hlater)].
      * apply elem_of_app in Hacc as [Hacc|Hnew]; [left; exact Hacc|].
        apply elem_of_cons in Hnew as [->|Hnil].
        -- right. exists entry. split; [apply elem_of_cons; left; reflexivity | exact Hmake].
        -- apply elem_of_nil in Hnil. contradiction.
      * right. exists e. split; [apply elem_of_cons; right; exact He | exact Hlater].
    + destruct (IH _ Hin) as [Hacc|(e & He & Hlater)]; [left; exact Hacc|].
      right. exists e. split; [apply elem_of_cons; right; exact He | exact Hlater].
    + left. exact Hin.
Qed.

(** X20.  The enhanced recap reads at most 15 entries per source.  Every
    article it keeps carries the name of one of the sources and is built
    from an entry of that source's feed whose [published_parsed] date is
    within the seven days before the run; its description has at most 500
    characters. *)
Theorem enhanced_fetch_is_bounded (w : World) (srcs : list Source) :
  (length (fetch_articles w srcs) <= 15 * length srcs)%nat
  /\ Forall
       (fun r =>
          (exists s feed,
             s ∈ srcs /\ r_source r = name s
             /\ parse w (url s) = Ok feed
             /\ raw_entry r ∈ take 15 (Feedparser.entries feed))
          /\ Feedparser.published_parsed (raw_entry r) = Some (r_published r)
          /\ now w - timedelta_days 7 <= r_published r
          /\ (String.length (r_description r) <= 500)%nat)
       (fetch_articles w srcs).
Proof.
  unfold fetch_articles.
  set (cutoff := now w - timedelta_days 7).
  rewrite (foldl_contributions
             (fun acc src => fetch_source w cutoff src acc)
             (fun acc src => enhanced_fetch_source_acc w cutoff acc src)).
  cbn [app]. split.
  - apply concat_map_length. intros s. unfold fetch_source.
    destruct (parse w (url s)) as [feed|msg].
    + pose proof (enhanced_entries_loop_length cutoff s
                    (take 15 (Feedparser.entries feed)) []) as Hlen.
      rewrite length_take in Hlen. cbn [length] in Hlen. lia.
    + cbn [length]. lia.
  - apply Forall_forall. intros r Hr.
    apply elem_of_concat_map in Hr as (s & Hs & Hr).
    unfold fetch_source in Hr.
    destruct (parse w (url s)) as [feed|msg] eqn:Hparse;
      [|apply elem_of_nil in Hr; contradiction].
    apply enhanced_entries_loop_in in Hr as [Hnil|(entry & Hentry & Hmake)];
      [apply elem_of_nil in Hnil; contradiction|].
    apply enhanced_make_article_fields in Hmake as (H1 & H2 & H3 & H4 & H5).
    rewrite H4.
    split; [exists s, feed; repeat split; first [assumption | reflexivity]|].
    repeat split; assumption.
Qed.

End EnhancedRecap.

(* ===================================================================== *)
(** * Further properties of the test script *)
(* ===================================================================== *)

Section LatestArticle.

Import MoningAITester Notions.

Lemma article_of_entry_source (s : Source) (entry : Feedparser.Entry) (a : Article) :
  article_of_entry s entry = Ok a ->
  a_source a = name s
  /\ Feedparser.link entry = Some (a_url a)
  /\ Feedparser.title entry = Some (a_title a).
Proof.
  unfold article_of_entry.
  destruct (Feedparser.link entry) as [article_url|]; cbn; [|discriminate].
  destruct (Feedparser.title entry) as [title|]; cbn; [|discriminate].
  intros [= <-]. repeat split; reflexivity.
Qed.

Lemma first_article_origin (parse : string -> result Feedparser.Feed)
    (sources : list Source) (a : Article) :
  first_article parse sources = Some a ->
  exists s feed entry rest,
    s ∈ sources
    /\ parse (url s) = Ok feed
    /\ Feedparser.entries feed = entry :: rest
    /\ article_of_entry s entry = Ok a.
Proof.
  induction sources as [|s sources IH]; cbn [first_article]; [discriminate|].
  assert (Hlater : first_article parse sources = Some a ->
            exists s' feed entry rest,
              s' ∈ s :: sources /\ parse (url s') = Ok feed
              /\ Feedparser.entries feed = entry :: rest
              /\ article_of_entry s' entry = Ok a).
  { intros H. destruct (IH H) as (s' & feed & entry & rest & Hs' & Hrest).
    exists s', feed, entry, rest. split; [apply elem_of_cons; right; exact Hs' | exact Hrest]. }
  destruct (parse (url s)) as [feed|msg] eqn:Hparse; [|exact Hlater].
  destruct (Feedparser.entries feed) as [|entry rest] eqn:Hentries; [exact Hlater|].
  destruct (article_of_entry s entry) as [a'|msg] eqn:Harticle; [|exact Hlater].
  intros [= <-]. exists s, feed, entry, rest.
  split; [apply elem_of_cons; left; reflexivity|]. repeat split; assumption.
Qed.

Lemma first_article_skips (parse : string -> result Feedparser.Feed)
    (skipped rest : list Source) :
  Forall (unusable parse) skipped ->
  first_article parse (skipped ++ rest) = first_article parse rest.
Proof.
  induction 1 as [|s skipped Hs Hskipped IH]; cbn [app first_article]; [reflexivity|].
  unfold unusable in Hs.
  destruct (parse (url s)) as [feed|msg]; [|exact IH].
  destruct (Feedparser.entries feed) as [|entry others]; [exact IH|].
  destruct (article_of_entry s entry) as [a|msg]; [contradiction | exact IH].
Qed.

(** X21.  An article [fetch_latest_article] returns is built from the
    first entry of the feed of one of the sources and carries that
    source's name and the entry's link and title; when a source name was
    asked for, it is the name of that source.  Asking for a name that no
    source has returns nothing, whatever the feeds hold. *)
Theorem latest_article_comes_from_a_source (parse : string -> result Feedparser.Feed)
    (sources : list Source) (wanted : option string) :
  (forall a,
     fetch_latest_article parse sources wanted = Some a ->
     exists s feed entry rest,
       s ∈ sources
       /\ parse (url s) = Ok feed
       /\ Feedparser.entries feed = entry :: rest
       /\ a_source a = name s
       /\ Feedparser.link entry = Some (a_url a)
       /\ Feedparser.title entry = Some (a_title a)
       /\ (forall n, wanted = Some n -> n <> "" -> name s = n))
  /\ (forall n,
        wanted = Some n -> n <> "" ->
        (forall s, s ∈ sources -> name s <> n) ->
        fetch_latest_article parse sources wanted = None).
Proof.
  unfold fetch_latest_article. split.
  - intros a Hfetch.
    destruct (truthy_opt wanted) eqn:Hwanted.
    + destruct (filter (fun s => name s = get wanted "") sources) as [|s0 l] eqn:Hfilter;
        [discriminate|].
      apply first_article_origin in Hfetch as (s & feed & entry & rest & Hs & Hp & He & Ha).
      rewrite <- Hfilter in Hs. apply list_elem_of_filter in Hs as [Hname Hs].
      apply article_of_entry_source in Ha as (H1 & H2 & H3).
      exists s, feed, entry, rest. repeat split; try assumption.
      intros n -> _. exact Hname.
    + apply first_article_origin in Hfetch as (s & feed & entry & rest & Hs & Hp & He & Ha).
      apply article_of_entry_source in Ha as (H1 & H2 & H3).
      exists s, feed, entry, rest. repeat split; try assumption.
      intros n -> Hn. cbn in Hwanted. apply truthy_true in Hn. congruence.
  - intros n -> Hn Hnone. cbn [truthy_opt get].
    apply truthy_true in Hn. rewrite Hn.
    destruct (filter (fun s => name s = n) sources) as [|s0 l] eqn:Hfilter; [reflexivity|].
    assert (s0 ∈ filter (fun s => name s = n) sources) as Hin
      by (rewrite Hfilter; apply elem_of_cons; left; reflexivity).
    apply list_elem_of_filter in Hin as [Hname Hs0].
    destruct (Hnone s0 Hs0 Hname).
Qed.

(** X22.  [fetch_latest_article] skips the sources that give nothing:
    sources whose feed cannot be parsed, is empty, or has a latest entry
    without link or title, placed before the others, do not change the
    article returned. *)
Theorem unusable_sources_are_skipped (parse : string -> result Feedparser.Feed)
    (skipped rest : list Source) :
  Forall (unusable parse) skipped ->
  fetch_latest_article parse (skipped ++ rest) None
  = fetch_latest_article parse rest None.
Proof.
  intros Hskipped. unfold fetch_latest_article. cbn [truthy_opt].
  apply first_article_skips. exact Hskipped.
Qed.

Lemma unusable_sources_are_skipped_witness :
  let down := {| name := "Down"; url := "https://down.example/feed" |} in
  let up := {| name := "Up"; url := "https://up.example/feed" |} in
  fetch_latest_article (feeds_without "https://down.example/feed") [down; up] None
  = fetch_latest_article (feeds_without "https://down.example/feed") [up] None.
Proof.
  intros down up.
  apply (unusable_sources_are_skipped (feeds_without "https://down.example/feed")
           [down] [up]).
  constructor; [|constructor]. vm_compute. exact I.
Defined.

Lemma version_nibble (b : Z) : Z.shiftr (Z.lor (Z.land b 15) 80) 4 = 5.
Proof.
  rewrite Z.shiftr_lor, Z.shiftr_land.
  change (Z.shiftr 15 4) with 0. change (Z.shiftr 80 4) with 5.
  rewrite Z.land_0_r. reflexivity.
Qed.

Lemma uuid5_text_shape (namespace : list Z) (text : string) :
  String.length (Uuid.str (Uuid.uuid5 namespace text)) = 36%nat
  /\ String.get 14 (Uuid.str (Uuid.uuid5 namespace text)) = Some "5"%char
  /\ String.get 8 (Uuid.str (Uuid.uuid5 namespace text)) = Some "-"%char
  /\ String.get 13 (Uuid.str (Uuid.uuid5 namespace text)) = Some "-"%char
  /\ String.get 18 (Uuid.str (Uuid.uuid5 namespace text)) = Some "-"%char
  /\ String.get 23 (Uuid.str (Uuid.uuid5 namespace text)) = Some "-"%char.
Proof.
  unfold Uuid.uuid5, Uuid.sha1.
  destruct (Uuid.blocks _ _ _) as [[[[h0 h1] h2] h3] h4].
  cbn [Uuid.be_bytes app]. unfold Uuid.set_version. cbn [take alter list_alter].
  repeat match goal with
         | |- context [Z.land (Z.shiftr ?h ?k) 255] =>
             generalize (Z.land (Z.shiftr h k) 255); intro
         end.
  unfold Uuid.str.
  cbn [take drop Uuid.hex String.append String.length String.get].
  rewrite version_nibble.
  repeat split; reflexivity.
Qed.

(** X23.  The identifier of every article [fetch_latest_article]
    returns has the layout of a version-5 UUID: 36 characters, hyphens
    after the 8th, 12th, 16th and 20th hexadecimal digit, and the version
    digit 5. *)
Theorem article_id_is_a_version_5_uuid (parse : string -> result Feedparser.Feed)
    (sources : list Source) (wanted : option string) (a : Article) :
  fetch_latest_article parse sources wanted = Some a ->
  String.length (id a) = 36%nat
  /\ String.get 14 (id a) = Some "5"%char
  /\ String.get 8 (id a) = Some "-"%char
  /\ String.get 13 (id a) = Some "-"%char
  /\ String.get 18 (id a) = Some "-"%char
  /\ String.get 23 (id a) = Some "-"%char.
Proof.
  intros Hfetch. rewrite (fetch_latest_article_id _ _ _ _ Hfetch).
  apply uuid5_text_shape.
Qed.

Lemma article_id_is_a_version_5_uuid_witness :
  String.length "57e65ffd-aa58-5497-a1b1-1577263be2d8" = 36%nat
  /\ String.get 14 "57e65ffd-aa58-5497-a1b1-1577263be2d8" = Some "5"%char.
Proof.
  destruct (article_id_is_a_version_5_uuid
              (same_feed [story "Morning title" "https://techcrunch.com/a" 0])
              rss_sources None
              {| id := "57e65ffd-aa58-5497-a1b1-1577263be2d8"; a_title := "Morning title";
                 a_url := "https://techcrunch.com/a"; a_content := "A description.";
                 a_source := "TechCrunch"; a_published := "Unknown";
                 a_author := "Unknown" |})
    as (Hlen & Hversion & _).
  - vm_compute. reflexivity.
  - split; [exact Hlen | exact Hversion].
Defined.

End LatestArticle.
